(** * The RPC dispatch engine of the dispatcher (src/dispatcher/src/rpc/rpc.py)

    A shallow embedding of [RpcContext] (the service registry and
    [dispatch_call]), of [RpcService.enumerate_methods], of [RpcException]
    and of the four built-in services, followed by the properties of the
    design document settled against it. *)

From Stdlib Require Import String Ascii ZArith List Bool.
From stdpp Require Import base gmap strings list fin_maps sorting.

Open Scope string_scope.
Set Warnings "-register-all".

(** ** Python values, exceptions and outcomes *)

(** The values that travel through the engine.  [VObject] is a reference to
    an object that the engine treats as opaque: the context itself, the
    dispatcher, its datastore and balancer, a generator, an instance of a
    subclass of dict or list, ... *)
Inductive pyval : Type :=
| VNone
| VBool (b : bool)
| VInt (z : Z)
| VStr (s : string)
| VList (l : list pyval)
| VDict (d : gmap string pyval)
| VObject (tyname : string)
| VTuple (l : list pyval).

(** The exception classes the engine tells apart.  [OtherError] stands for
    every class that derives from none of the others. *)
Inductive pyexn : Type :=
| TypeError (msg : string)
| AttributeError (msg : string)
| KeyError (key : string)
| RpcException (code : Z) (message : string)
| OtherError (cls : string) (msg : string).

Inductive outcome (A : Type) : Type :=
| Return (a : A)
| Raise (e : pyexn).
Arguments Return {A} a.
Arguments Raise {A} e.

(** errno.EINVAL and errno.ENOENT *)
Definition EINVAL : Z := 22.
Definition ENOENT : Z := 2.

Definition is_TypeError (e : pyexn) : bool :=
  match e with TypeError _ => true | _ => false end.

Definition is_AttributeError (e : pyexn) : bool :=
  match e with AttributeError _ => true | _ => false end.

(** ** Strings: [str.rpartition] and [str.startswith] *)

Definition dot : ascii := "."%char.

(** [rsplit_dot s] is [Some (head, tail)] when [s] has a dot, split at the
    last one, and [None] when it has none. *)
Fixpoint rsplit_dot (s : string) : option (string * string) :=
  match s with
  | EmptyString => None
  | String c r =>
      match rsplit_dot r with
      | Some (h, t) => Some (String c h, t)
      | None => if Ascii.eqb c dot then Some (EmptyString, r) else None
      end
  end.

(** [method.rpartition(".")]: (head, separator, tail), and
    ("", "", method) when the separator does not occur. *)
Definition rpartition (s : string) : string * string * string :=
  match rsplit_dot s with
  | Some (h, t) => (h, ".", t)
  | None => ("", "", s)
  end.

Fixpoint has_dot (s : string) : bool :=
  match s with
  | EmptyString => false
  | String c r => Ascii.eqb c dot || has_dot r
  end.

(** [method.startswith('_')] *)
Definition startswith_underscore (s : string) : bool :=
  match s with
  | String c _ => Ascii.eqb c "_"%char
  | EmptyString => false
  end.

(** ** Calling a Python function: how arguments are bound *)

(** A declared parameter (after [self]) and its default value, if any. *)
Record param : Type := { p_name : string; p_default : option pyval }.

(** [func( *args )] and [func( **args )] *)
Inductive call_args : Type :=
| Positional (l : list pyval)
| Keyword (d : gmap string pyval).

Abbreviation env := (gmap string pyval).

(** Positional binding, in sequence order; the parameters left over take
    their defaults.  [None] is the interpreter's TypeError (too many
    arguments, or a parameter without value). *)
Fixpoint bind_positional (ps : list param) (l : list pyval) : option env :=
  match ps, l with
  | [], [] => Some ∅
  | [], _ :: _ => None
  | p :: ps', [] =>
      match p_default p, bind_positional ps' [] with
      | Some v, Some e => Some (<[p_name p := v]> e)
      | _, _ => None
      end
  | p :: ps', v :: l' =>
      match bind_positional ps' l' with
      | Some e => Some (<[p_name p := v]> e)
      | None => None
      end
  end.

Fixpoint bind_named (ps : list param) (d : gmap string pyval) : option env :=
  match ps with
  | [] => Some ∅
  | p :: ps' =>
      match (match d !! p_name p with Some v => Some v | None => p_default p end),
            bind_named ps' d with
      | Some v, Some e => Some (<[p_name p := v]> e)
      | _, _ => None
      end
  end.

(** Keyword binding: every key must name a declared parameter, every
    parameter must get a value or have a default. *)
Definition bind_keyword (ps : list param) (d : gmap string pyval) : option env :=
  if decide (dom d ⊆ list_to_set (p_name <$> ps))
  then bind_named ps d
  else None.

Definition bind_args (ps : list param) (a : call_args) : option env :=
  match a with
  | Positional l => bind_positional ps l
  | Keyword d => bind_keyword ps d
  end.

(** ** Services: classes, instances, attribute lookup *)

(** An instance's own attributes ([__dict__]). *)
Abbreviation attrs := (gmap string pyval).

(** What lies outside rpc.py is taken as a parameter.  [collaborator] is
    what a call into the dispatcher that owns the context answers (tasks,
    plugins, ws_server, datastore, balancer; iterating one of their
    objects).  [object_member] is what the interpreter does when one of the
    members that every object has ([__class__], [__setattr__], [__repr__],
    ...) is called on an instance of the class named, with the instance's
    attributes before and after. *)
Record Dispatcher : Type :=
  { collaborator : string -> list pyval -> outcome pyval;
    object_member : string -> string -> attrs -> call_args -> attrs * outcome pyval }.

(** The body of a method.  [BodyFun] is code that only touches its own
    instance and the collaborators; the other three read the registry or
    are the generator function of [RpcService]. *)
Inductive body : Type :=
| BodyFun (f : Dispatcher -> attrs -> env -> attrs * outcome pyval)
| BodyGetServices
| BodyGetMethods
| BodyEnumerate.

(** A function defined in a class: its parameters (after [self], if it
    has one), its body, and whether it is a [@staticmethod]. *)
Record method : Type :=
  { m_params : list param; m_body : body; m_static : bool }.

(** A class: its name, what [clazz()] does (run [__init__] without
    arguments, which yields the new object's attributes or raises) and the
    functions an instance finds on it, inherited ones included. *)
Record clazz : Type :=
  { cls_name : string;
    cls_new : outcome attrs;
    cls_methods : gmap string method }.

Record instance : Type :=
  { inst_class : clazz;
    inst_dict : attrs }.

(** What [getattr] hands back: a bound method, the plain function of a
    static method, a plain value, or one of the members every object has. *)
Inductive attribute : Type :=
| BoundMethod (m : method)
| Plain (v : pyval)
| StaticMethod (m : method)
| ObjectMember (name : string).

(** The members that every instance of a class derived from [object] has
    without its class defining them. *)
Definition object_members : list string :=
  [ "__class__"; "__delattr__"; "__dict__"; "__doc__"; "__format__";
    "__getattribute__"; "__hash__"; "__init__"; "__module__"; "__new__";
    "__reduce__"; "__reduce_ex__"; "__repr__"; "__setattr__"; "__sizeof__";
    "__str__"; "__subclasshook__"; "__weakref__" ].

(** [getattr(obj, name)]: the instance's own attributes first, then the
    functions of its class, then the members every object has, and
    AttributeError when none has the name. *)
Definition getattr (i : instance) (name : string) : outcome attribute :=
  match inst_dict i !! name with
  | Some v => Return (Plain v)
  | None =>
      match cls_methods (inst_class i) !! name with
      | Some m => Return (if m_static m then StaticMethod m else BoundMethod m)
      | None =>
          if decide (name ∈ object_members) then Return (ObjectMember name)
          else Raise (AttributeError name)
      end
  end.

(** ** RpcService.enumerate_methods *)

Definition name_le (a b : string * method) : Prop :=
  String.leb (fst a) (fst b) = true.

#[local] Instance name_le_dec a b : Decision (name_le a b).
Proof. unfold name_le. apply _. Defined.

(** [inspect.getmembers(self, predicate=inspect.ismethod)]: the members
    sorted by name whose value is a bound method, that is the functions of
    the class that are not static and that no attribute of the instance
    hides. *)
Definition getmembers_ismethod (i : instance) : list (string * method) :=
  filter (fun nm => inst_dict i !! fst nm = None /\ m_static (snd nm) = false)
         (merge_sort name_le (map_to_list (cls_methods (inst_class i)))).

Definition reserved (name : string) : bool :=
  bool_decide (name = "initialize") || bool_decide (name = "enumerate_methods").

(** The loop of [enumerate_methods], which yields the names it keeps. *)
Fixpoint enumerate_loop (members : list (string * method)) : list string :=
  match members with
  | [] => []
  | i :: rest =>
      let method := fst i in
      if startswith_underscore method then enumerate_loop rest
      else if reserved method then enumerate_loop rest
      else method :: enumerate_loop rest
  end.

Definition enumerate_methods (self : instance) : list string :=
  enumerate_loop (getmembers_ismethod self).

(** ** RpcContext: the registry and its state *)

(** One call made by the engine on a member of a registered instance: the
    name the instance is registered under, the member and the arguments.
    The list of these calls is kept in the context as a record of what the
    engine invoked; the source has no such field. *)
Record call_event : Type :=
  { ce_service : string;
    ce_member : string;
    ce_args : call_args }.

Record RpcContext : Type :=
  { dispatcher : Dispatcher;
    logger : list string;
    services : gmap string clazz;
    instances : gmap string instance;
    invoked : list call_event }.

Definition set_services (f : gmap string clazz -> gmap string clazz)
    (c : RpcContext) : RpcContext :=
  {| dispatcher := dispatcher c; logger := logger c;
     services := f (services c); instances := instances c;
     invoked := invoked c |}.

Definition set_instances (f : gmap string instance -> gmap string instance)
    (c : RpcContext) : RpcContext :=
  {| dispatcher := dispatcher c; logger := logger c;
     services := services c; instances := f (instances c);
     invoked := invoked c |}.

Definition add_log (line : string) (c : RpcContext) : RpcContext :=
  {| dispatcher := dispatcher c; logger := logger c ++ [line];
     services := services c; instances := instances c;
     invoked := invoked c |}.

Definition add_invoked (ev : call_event) (c : RpcContext) : RpcContext :=
  {| dispatcher := dispatcher c; logger := logger c;
     services := services c; instances := instances c;
     invoked := invoked c ++ [ev] |}.

(** Code that runs on the context: it always leaves a context behind, and
    either returns or raises. *)
Definition M (A : Type) : Type := RpcContext -> RpcContext * outcome A.

Definition ret {A} (a : A) : M A := fun c => (c, Return a).
Definition raise {A} (e : pyexn) : M A := fun c => (c, Raise e).
Definition bind {A B} (m : M A) (k : A -> M B) : M B :=
  fun c => match m c with
           | (c', Return a) => k a c'
           | (c', Raise e) => (c', Raise e)
           end.
Definition get : M RpcContext := fun c => (c, Return c).
Definition modify (f : RpcContext -> RpcContext) : M unit :=
  fun c => (f c, Return tt).
Definition lift {A} (o : outcome A) : M A := fun c => (c, o).

(** [try: m except <class>: handler], the class given by [catches]. *)
Definition try_except {A} (m : M A) (catches : pyexn -> bool) (handler : M A) : M A :=
  fun c => match m c with
           | (c', Raise e) => if catches e then handler c' else (c', Raise e)
           | r => r
           end.

Notation "x <- m ;; k" := (bind m (fun x => k))
  (at level 100, m at next level, right associativity).
Notation "m ;;; k" := (bind m (fun _ => k))
  (at level 100, right associativity).

(** The reference to the context itself, as a value handed to a service. *)
Definition context_ref : pyval := VObject "RpcContext".

(** [self.instances[name]] *)
Definition instance_at (name : string) : M instance :=
  fun c => match instances c !! name with
           | Some i => (c, Return i)
           | None => (c, Raise (KeyError name))
           end.

Definition keys_value {A} (m : gmap string A) : pyval :=
  VList (VStr <$> (fst <$> map_to_list m)).

(** Whether the private attribute [attr] holds the context. *)
Definition holds_context (d : attrs) (attr : string) : bool :=
  match d !! attr with
  | Some (VObject o) => bool_decide (o = "RpcContext")
  | _ => false
  end.

(** DiscoveryService.get_methods, after [self.__context] was found.  The
    [enumerate_methods] that the target instance has is looked up (an
    instance without one raises AttributeError) and taken to be
    RpcService's. *)
Definition get_methods (service : pyval) : M pyval :=
  c <- get ;;
  match service with
  | VStr s =>
      if decide (s ∈ dom (services c)) then
        i <- instance_at s ;;
        lift (getattr i "enumerate_methods") ;;;
        ret (VList (VStr <$> enumerate_methods i))
      else raise (RpcException ENOENT "Service not found")
  | _ => raise (RpcException ENOENT "Service not found")
  end.

(** Running the body of a method of the instance registered under
    [service], with its parameters bound to [e]. *)
Definition run_body (service : string) (self : instance) (b : body) (e : env) : M pyval :=
  match b with
  | BodyFun f =>
      c <- get ;;
      let '(d', r) := f (dispatcher c) (inst_dict self) e in
      modify (set_instances
                <[service := {| inst_class := inst_class self; inst_dict := d' |}]>) ;;;
      lift r
  | BodyGetServices =>
      (* return self.__context.services.keys() *)
      if holds_context (inst_dict self) "_DiscoveryService__context"
      then c <- get ;; ret (keys_value (services c))
      else raise (AttributeError "services")
  | BodyGetMethods =>
      if holds_context (inst_dict self) "_DiscoveryService__context"
      then get_methods (default VNone (e !! "service"))
      else raise (AttributeError "services")
  | BodyEnumerate =>
      (* a generator function: the call returns the generator *)
      ret (VObject "generator")
  end.

(** Storing back the attributes of the instance registered under
    [service]. *)
Definition store_attrs (service : string) (self : instance) (d : attrs) : M unit :=
  modify (set_instances
            <[service := {| inst_class := inst_class self; inst_dict := d |}]>).

(** The call [func( *args )] or [func( **args )] on what [getattr] found on
    the instance registered under [service].  A static method receives no
    instance: its body runs on no attributes and leaves the instance
    alone. *)
Definition invoke (service member : string) (self : instance)
    (func : attribute) (a : call_args) : M pyval :=
  modify (add_invoked {| ce_service := service; ce_member := member; ce_args := a |}) ;;;
  match func with
  | Plain _ => raise (TypeError "object is not callable")
  | BoundMethod m =>
      match bind_args (m_params m) a with
      | None => raise (TypeError "arguments do not match the parameters")
      | Some e => run_body service self (m_body m) e
      end
  | StaticMethod m =>
      match bind_args (m_params m) a with
      | None => raise (TypeError "arguments do not match the parameters")
      | Some e =>
          match m_body m with
          | BodyFun f => c <- get ;; lift (snd (f (dispatcher c) ∅ e))
          | b => run_body service self b e
          end
      end
  | ObjectMember name =>
      c <- get ;;
      let '(d', r) :=
        object_member (dispatcher c) (cls_name (inst_class self)) name
          (inst_dict self) a in
      store_attrs service self d' ;;;
      lift r
  end.

(** ** RpcContext.register_service, unregister_service, dispatch_call *)

Definition register_service (name : string) (cl : clazz) : M unit :=
  (* self.services[name] = clazz *)
  modify (set_services <[name := cl]>) ;;;
  (* self.instances[name] = clazz() *)
  d <- lift (cls_new cl) ;;
  modify (set_instances <[name := {| inst_class := cl; inst_dict := d |}]>) ;;;
  (* self.instances[name].initialize(self) *)
  i <- instance_at name ;;
  f <- lift (getattr i "initialize") ;;
  invoke name "initialize" i f (Positional [context_ref]) ;;;
  ret tt.

Definition unregister_service (name : string) : M unit :=
  c <- get ;;
  if decide (name ∈ dom (services c)) then
    (* del self.instances[name] *)
    instance_at name ;;;
    modify (set_instances (delete name)) ;;;
    (* del self.services[name] *)
    modify (set_services (delete name))
  else ret tt.

Definition call_line (service method : string) : string :=
  "Call: service=" ++ service ++ ", method=" ++ method.

(** [type(args) is dict] gives a keyword call, [type(args) is list] a
    positional one, anything else no call at all. *)
Definition call_shape (args : pyval) : option call_args :=
  match args with
  | VDict d => Some (Keyword d)
  | VList l => Some (Positional l)
  | _ => None
  end.

Definition invalid_parameters : pyexn :=
  RpcException EINVAL "Invalid function parameters".

(** What [except TypeError] makes of an outcome. *)
Definition remapped (o : outcome pyval) : outcome pyval :=
  match o with
  | Raise x => if is_TypeError x then Raise invalid_parameters else Raise x
  | r => r
  end.

(** Lines 48-56: the call itself, under [except TypeError]. *)
Definition bind_and_call (service name : string) (i : instance)
    (func : attribute) (args : pyval) : M pyval :=
  try_except
    (match call_shape args with
     | Some a => invoke service name i func a
     | None => raise (RpcException EINVAL
                 "Function parameters should be passed as dictionary or array")
     end)
    is_TypeError
    (raise invalid_parameters).

(** [if args is None: args = {}] *)
Definition args_or_empty (args : pyval) : pyval :=
  match args with VNone => VDict ∅ | _ => args end.

(** Lines 32-56: what happens once the path is split. *)
Definition dispatch_split (service name method : string) (args : pyval) : M pyval :=
  modify (add_log (call_line service method)) ;;;
  let args := args_or_empty args in
  if decide (service = "") then
    raise (RpcException EINVAL "Invalid function path")
  else
    c <- get ;;
    if decide (service ∈ dom (services c)) then
      i <- instance_at service ;;
      func <- try_except (lift (getattr i name)) is_AttributeError
                (raise (RpcException ENOENT "Method not found")) ;;
      bind_and_call service name i func args
    else
      raise (RpcException ENOENT ("Service " ++ service ++ " not found")).

Definition dispatch_call (method : string) (args : pyval) : M pyval :=
  let '(service, sep, name) := rpartition method in
  dispatch_split service name method args.

(** ** The built-in services *)

Definition required (n : string) : param := {| p_name := n; p_default := None |}.
Definition optional (n : string) (v : pyval) : param :=
  {| p_name := n; p_default := Some v |}.
Definition def (ps : list param) (b : body) : method :=
  {| m_params := ps; m_body := b; m_static := false |}.

(** [@staticmethod def f(...)] *)
Definition staticmethod (ps : list param) (b : body) : method :=
  {| m_params := ps; m_body := b; m_static := true |}.

Definition arg (e : env) (n : string) : pyval := default VNone (e !! n).

(** [self.<attr> = <value>], returning None *)
Definition store (assignments : env -> option (list (string * pyval))) : body :=
  BodyFun (fun _ self e =>
    match assignments e with
    | Some kvs => (foldl (fun s kv => <[fst kv := snd kv]> s) self kvs, Return VNone)
    | None => (self, Raise (AttributeError "dispatcher"))
    end).

(** A method that reaches a collaborator through the object it keeps in the
    private attribute [attr] (which must hold the object [holds]) and
    returns what the collaborator answers, or None when the source has no
    [return]. *)
Definition through (attr holds op : string) (args : env -> list pyval)
    (returns : bool) : body :=
  BodyFun (fun d self e =>
    match self !! attr with
    | Some (VObject o) =>
        if decide (o = holds) then
          match collaborator d op (args e) with
          | Return v => (self, Return (if returns then v else VNone))
          | Raise x => (self, Raise x)
          end
        else (self, Raise (AttributeError op))
    | _ => (self, Raise (AttributeError attr))
    end).

(** [list(x)]: a list or a tuple gives the list of its items, a dict the
    list of its keys, a string the list of its characters; None, a boolean
    and a number are not iterable; iterating an opaque object is the
    collaborators' business. *)
Definition py_list (d : Dispatcher) (v : pyval) : outcome pyval :=
  match v with
  | VList l => Return (VList l)
  | VTuple l => Return (VList l)
  | VDict m => Return (keys_value m)
  | VStr s =>
      Return (VList ((fun ch => VStr (String ch EmptyString)) <$> list_ascii_of_string s))
  | VObject o =>
      match collaborator d "iter" [VObject o] with
      | Return (VList l) => Return (VList l)
      | Return _ => Raise (TypeError "iter() returned non-iterator")
      | Raise x => Raise x
      end
  | VNone | VBool _ | VInt _ => Raise (TypeError "object is not iterable")
  end.

(** Like [through], for a method that hands the collaborator's answer to
    [post] and returns the result. *)
Definition through_then (attr holds op : string) (args : env -> list pyval)
    (post : Dispatcher -> pyval -> outcome pyval) : body :=
  BodyFun (fun d self e =>
    match self !! attr with
    | Some (VObject o) =>
        if decide (o = holds) then
          match collaborator d op (args e) with
          | Return v => (self, post d v)
          | Raise x => (self, Raise x)
          end
        else (self, Raise (AttributeError op))
    | _ => (self, Raise (AttributeError attr))
    end).

(** [def f(self): pass] *)
Definition pass : body := BodyFun (fun _ self _ => (self, Return VNone)).

(** class RpcService(object) *)
Definition RpcService_methods : gmap string method :=
  {[ "enumerate_methods" := def [] BodyEnumerate ]}.

(** class DiscoveryService(RpcService) *)
Definition DiscoveryService : clazz :=
  {| cls_name := "DiscoveryService";
     cls_new := Return {[ "_DiscoveryService__context" := VNone ]};
     cls_methods :=
       list_to_map
         [ ("__init__",
            def [] (store (fun _ => Some [("_DiscoveryService__context", VNone)])));
           ("initialize",
            def [required "context"]
              (store (fun e => Some [("_DiscoveryService__context", arg e "context")])));
           ("get_services", def [] BodyGetServices);
           ("get_tasks",
            def [] (through "_DiscoveryService__context" "RpcContext"
                      "dispatcher.tasks.keys" (fun _ => []) true));
           ("get_methods", def [required "service"] BodyGetMethods) ]
       ∪ RpcService_methods |}.

(** class ManagementService(RpcService) *)
Definition ManagementService : clazz :=
  let ctx_attr := "_ManagementService__context" in
  {| cls_name := "ManagementService";
     cls_new := Return ∅;
     cls_methods :=
       list_to_map
         [ ("initialize",
            def [required "context"]
              (store (fun e => Some [(ctx_attr, arg e "context")])));
           ("status", def [] pass);
           ("reload_plugins",
            def [] (through ctx_attr "RpcContext"
                      "dispatcher.discover_plugins" (fun _ => []) false));
           ("restart", def [] pass);
           ("get_connected_clients",
            def [] (through ctx_attr "RpcContext"
                      "dispatcher.ws_server.clients.keys" (fun _ => []) true));
           ("die_you_gravy_sucking_pig_dog",
            def [] (through ctx_attr "RpcContext"
                      "dispatcher.die" (fun _ => []) false)) ]
       ∪ RpcService_methods |}.

(** [context.dispatcher.<field>]: only the context has a dispatcher. *)
Definition dispatcher_field (context : pyval) (field : string) : option pyval :=
  match context with
  | VObject "RpcContext" => Some (VObject field)
  | _ => None
  end.

Definition is_not_None (v : pyval) : bool :=
  match v with VNone => false | _ => true end.

(** [def query(self, mask, start=None, end=None, limit=None)], which
    returns [list(self.__datastore.query('events', where, limit))] *)
Definition event_query : method :=
  def [required "mask"; optional "start" VNone;
       optional "end" VNone; optional "limit" VNone]
    (through_then "_EventService__datastore" "datastore" "datastore.query"
       (fun e =>
          let where_start :=
            if is_not_None (arg e "start")
            then [VTuple [VStr "timestamp"; VStr ">="; arg e "start"]]
            else [] in
          let where_end :=
            if is_not_None (arg e "end")
            then [VTuple [VStr "timestamp"; VStr "<="; arg e "end"]]
            else [] in
          [VStr "events"; VList (where_start ++ where_end); arg e "limit"])
       py_list).

(** class EventService(RpcService) *)
Definition EventService : clazz :=
  {| cls_name := "EventService";
     cls_new := Return ∅;
     cls_methods :=
       list_to_map
         [ ("initialize",
            def [required "context"]
              (store (fun e =>
                 ds ← dispatcher_field (arg e "context") "datastore";
                 di ← dispatcher_field (arg e "context") "dispatcher";
                 Some [("_EventService__datastore", ds);
                       ("_EventService__dispatcher", di)])));
           ("query", event_query) ]
       ∪ RpcService_methods |}.

(** class TaskService(RpcService); what the balancer and the datastore
    compute for each operation is the collaborators' business. *)
Definition TaskService : clazz :=
  let ds := "_TaskService__datastore" in
  let bal := "_TaskService__balancer" in
  {| cls_name := "TaskService";
     cls_new := Return ∅;
     cls_methods :=
       list_to_map
         [ ("initialize",
            def [required "context"]
              (store (fun e =>
                 d ← dispatcher_field (arg e "context") "datastore";
                 b ← dispatcher_field (arg e "context") "balancer";
                 Some [(ds, d); (bal, b)])));
           ("submit",
            def [required "name"; required "args"]
              (through bal "balancer" "balancer.submit"
                 (fun e => [arg e "name"; arg e "args"]) true));
           ("status",
            def [required "id"]
              (through ds "datastore" "task.status" (fun e => [arg e "id"]) true));
           ("abort",
            def [required "id"]
              (through bal "balancer" "balancer.abort" (fun e => [arg e "id"]) false));
           ("list_queues",
            def [] (through bal "balancer" "task.list_queues" (fun _ => []) true));
           ("list_tasks",
            def [optional "limit" VNone]
              (through ds "datastore" "task.list_tasks" (fun e => [arg e "limit"]) true));
           ("list_active",
            def [] (through bal "balancer" "task.list_active" (fun _ => []) true));
           ("list_failed",
            def [] (through bal "balancer" "task.list_failed" (fun _ => []) true)) ]
       ∪ RpcService_methods |}.

(** ** RpcContext.__init__ *)

Definition empty_context (d : Dispatcher) : RpcContext :=
  {| dispatcher := d; logger := []; services := ∅; instances := ∅; invoked := [] |}.

Definition RpcContext_init (d : Dispatcher) : RpcContext * outcome unit :=
  (register_service "server" ManagementService ;;;
   register_service "discovery" DiscoveryService ;;;
   register_service "task" TaskService ;;;
   register_service "event" EventService) (empty_context d).

(** ** A sample service, for evaluating the engine *)

(** [a + b] on the values modelled: numbers (booleans count as 0 and 1)
    are added, two strings, two lists or two tuples are concatenated,
    anything else is a TypeError. *)
Definition as_number (v : pyval) : option Z :=
  match v with
  | VInt z => Some z
  | VBool b => Some (if b then 1 else 0)%Z
  | _ => None
  end.

Definition py_add (a b : pyval) : outcome pyval :=
  match as_number a, as_number b with
  | Some x, Some y => Return (VInt (x + y))
  | _, _ =>
      match a, b with
      | VStr x, VStr y => Return (VStr (x ++ y))
      | VList x, VList y => Return (VList (x ++ y))
      | VTuple x, VTuple y => Return (VTuple (x ++ y))
      | _, _ => Raise (TypeError "unsupported operand type(s) for +")
      end
  end.

(** [def add(self, a, b): return a + b] *)
Definition math_add : method :=
  def [required "a"; required "b"]
    (BodyFun (fun _ self e => (self, py_add (arg e "a") (arg e "b")))).

(** class MathService(RpcService) with [initialize], [add(a, b)] returning
    [a + b], and a private [_secret()] returning 42. *)
Definition MathService : clazz :=
  {| cls_name := "MathService";
     cls_new := Return ∅;
     cls_methods :=
       list_to_map
         [ ("initialize",
            def [required "context"]
              (store (fun e => Some [("_MathService__context", arg e "context")])));
           ("add", math_add);
           ("_secret",
            def [] (BodyFun (fun _ self _ => (self, Return (VInt 42))))) ]
       ∪ RpcService_methods |}.

Definition quiet : Dispatcher :=
  {| collaborator := fun _ _ => Return VNone;
     object_member := fun _ _ self _ => (self, Return VNone) |}.

Definition math_context : RpcContext :=
  fst (register_service "math" MathService (empty_context quiet)).

(** The instance that registration leaves under "math". *)
Definition math_instance : instance :=
  {| inst_class := MathService;
     inst_dict := {[ "_MathService__context" := context_ref ]} |}.

Definition flaky_ping : method :=
  def [] (BodyFun (fun _ self _ => (self, Return (VStr "pong")))).

Definition flaky_boom : method :=
  def [] (BodyFun (fun _ self _ => (self, Raise (OtherError "ValueError" "boom")))).

(** class FlakyService(RpcService): [initialize] raises IOError, [ping()]
    returns "pong" and [boom()] raises ValueError. *)
Definition FlakyService : clazz :=
  {| cls_name := "FlakyService";
     cls_new := Return ∅;
     cls_methods :=
       list_to_map
         [ ("initialize",
            def [required "context"]
              (BodyFun (fun _ self _ => (self, Raise (OtherError "IOError" "no datastore")))));
           ("ping", flaky_ping);
           ("boom", flaky_boom) ]
       ∪ RpcService_methods |}.

(** The context after [register_service("flaky", FlakyService)] raised, and
    the instance it left under "flaky". *)
Definition flaky_context : RpcContext :=
  fst (register_service "flaky" FlakyService (empty_context quiet)).

Definition flaky_instance : instance :=
  {| inst_class := FlakyService; inst_dict := ∅ |}.

(** [@staticmethod def version(): return "1.0"] *)
Definition tool_version : method :=
  staticmethod [] (BodyFun (fun _ self _ => (self, Return (VStr "1.0")))).

(** class ToolService(RpcService) with [initialize], [ping()] and the
    static method [version()]. *)
Definition ToolService : clazz :=
  {| cls_name := "ToolService";
     cls_new := Return ∅;
     cls_methods :=
       list_to_map
         [ ("initialize",
            def [required "context"]
              (store (fun e => Some [("_ToolService__context", arg e "context")])));
           ("ping", flaky_ping);
           ("version", tool_version) ]
       ∪ RpcService_methods |}.

Definition tool_context : RpcContext :=
  fst (register_service "tool" ToolService (empty_context quiet)).

Definition tool_instance : instance :=
  {| inst_class := ToolService;
     inst_dict := {[ "_ToolService__context" := context_ref ]} |}.

(** What can be called among the things [getattr] finds: a bound method
    and the function of a static method. *)
Definition is_callable (f : attribute) : bool :=
  match f with
  | BoundMethod _ | StaticMethod _ => true
  | _ => false
  end.

(** class NeedsArgument(RpcService) whose [__init__(self, path)] cannot be
    called without arguments, so that [clazz()] raises TypeError. *)
Definition NeedsArgument : clazz :=
  {| cls_name := "NeedsArgument";
     cls_new := Raise (TypeError "__init__() takes exactly 2 arguments (1 given)");
     cls_methods :=
       list_to_map [ ("initialize", def [required "context"] pass) ]
       ∪ RpcService_methods |}.

(** ** Sequences of registry operations *)

Inductive registry_op : Type :=
| Register (name : string) (cl : clazz)
| Unregister (name : string).

Definition run_op (o : registry_op) : M unit :=
  match o with
  | Register name cl => register_service name cl
  | Unregister name => unregister_service name
  end.

(** The operations one after the other on the same context; an operation
    that raises leaves the context as it was when it raised. *)
Fixpoint run_ops (ops : list registry_op) (c : RpcContext) : RpcContext :=
  match ops with
  | [] => c
  | o :: rest => run_ops rest (fst (run_op o c))
  end.

Definition constructs (o : registry_op) : Prop :=
  match o with
  | Register _ cl => exists d, cls_new cl = Return d
  | Unregister _ => True
  end.

(** * Properties *)

(** ** Splitting the method path *)

Lemma rsplit_dot_none (s : string) :
  has_dot s = false -> rsplit_dot s = None.
Proof.
  induction s as [|c r IH]; simpl; [reflexivity|].
  intros H. apply orb_false_iff in H as [Hc Hr].
  rewrite (IH Hr), Hc. reflexivity.
Qed.

Lemma rsplit_dot_last (h t : string) :
  has_dot t = false -> rsplit_dot (h ++ String dot t) = Some (h, t).
Proof.
  intros Ht. induction h as [|c r IH]; simpl.
  - rewrite (rsplit_dot_none t Ht). reflexivity.
  - rewrite IH. reflexivity.
Qed.

Lemma rsplit_dot_some (s h t : string) :
  rsplit_dot s = Some (h, t) -> s = h ++ String dot t /\ has_dot t = false.
Proof.
  revert h. induction s as [|c r IH]; simpl; intros h H; [discriminate|].
  destruct (rsplit_dot r) as [[h' t']|] eqn:E.
  - injection H as <- <-. destruct (IH h' eq_refl) as [-> Hd]. split; reflexivity || exact Hd.
  - destruct (Ascii.eqb c dot) eqn:Ec; [|discriminate].
    injection H as <- <-. apply Ascii.eqb_eq in Ec as ->. split; [reflexivity|].
    clear IH. induction r as [|c' r' IH']; simpl in *; [reflexivity|].
    destruct (rsplit_dot r') as [[? ?]|]; [discriminate|].
    destruct (Ascii.eqb c' dot); [discriminate|]. simpl. apply IH'. reflexivity.
Qed.

Lemma rpartition_last (service operation : string) :
  has_dot operation = false ->
  rpartition (service ++ "." ++ operation) = (service, ".", operation).
Proof.
  intros H. unfold rpartition. change ("." ++ operation) with (String dot operation).
  rewrite (rsplit_dot_last _ _ H). reflexivity.
Qed.

Lemma rpartition_no_dot (method : string) :
  has_dot method = false -> rpartition method = ("", "", method).
Proof. intros H. unfold rpartition. rewrite (rsplit_dot_none _ H). reflexivity. Qed.

(** ** What the engine's steps leave untouched *)

Lemma get_methods_context (v : pyval) (c : RpcContext) :
  fst (get_methods v c) = c.
Proof.
  unfold get_methods, bind, get, instance_at, ret, raise, lift.
  destruct v; try reflexivity.
  destruct (decide _); [|reflexivity].
  destruct (instances c !! s) as [i|]; [|reflexivity].
  destruct (getattr i "enumerate_methods"); reflexivity.
Qed.

(** A body changes at most the attributes of the instance it runs on,
    which it stores back under [service]. *)
Definition touches (service : string) (self : instance)
    (f : gmap string instance -> gmap string instance) : Prop :=
  f = id \/
  exists d, f = <[service := {| inst_class := inst_class self; inst_dict := d |}]>.

Lemma run_body_context (service : string) (self : instance) (b : body)
    (e : env) (c : RpcContext) :
  exists f, fst (run_body service self b e c) = set_instances f c /\
            touches service self f.
Proof.
  destruct b as [f| | |]; simpl.
  - unfold bind, get, modify, lift.
    destruct (f (dispatcher c) (inst_dict self) e) as [d' r].
    eexists. split; [destruct r; reflexivity|]. right. eexists. reflexivity.
  - exists id. split; [|left; reflexivity].
    destruct (holds_context _ _); destruct c; reflexivity.
  - exists id. split; [|left; reflexivity].
    destruct (holds_context _ _); [|destruct c; reflexivity].
    rewrite get_methods_context. destruct c; reflexivity.
  - exists id. split; [destruct c; reflexivity | left; reflexivity].
Qed.

Lemma invoke_context (service member : string) (self : instance)
    (func : attribute) (a : call_args) (c : RpcContext) :
  exists f, fst (invoke service member self func a c)
            = set_instances f (add_invoked
                {| ce_service := service; ce_member := member; ce_args := a |} c) /\
            touches service self f.
Proof.
  unfold invoke, bind, modify. simpl.
  destruct func as [m|v|m|n].
  - destruct (bind_args (m_params m) a) as [e|].
    + apply run_body_context.
    + exists id. split; [reflexivity | left; reflexivity].
  - exists id. split; [reflexivity | left; reflexivity].
  - destruct (bind_args (m_params m) a) as [e|].
    + destruct (m_body m) as [f| | |] eqn:Hb.
      * exists id. split; [|left; reflexivity].
        reflexivity.
      * apply (run_body_context service self BodyGetServices e).
      * apply (run_body_context service self BodyGetMethods e).
      * apply (run_body_context service self BodyEnumerate e).
    + exists id. split; [reflexivity | left; reflexivity].
  - unfold get, store_attrs, modify, lift. simpl.
    destruct (object_member _ _ _ _ _) as [d' r].
    eexists. split; [destruct r; reflexivity|]. right. eexists. reflexivity.
Qed.

(** Each call expression is recorded once, whatever comes of it. *)
Lemma invoke_invoked (service member : string) (self : instance)
    (func : attribute) (a : call_args) (c : RpcContext) :
  invoked (fst (invoke service member self func a c))
  = (invoked c ++ [{| ce_service := service; ce_member := member; ce_args := a |}])%list.
Proof.
  destruct (invoke_context service member self func a c) as (f & -> & _). reflexivity.
Qed.

Lemma invoke_services (service member : string) (self : instance)
    (func : attribute) (a : call_args) (c : RpcContext) :
  services (fst (invoke service member self func a c)) = services c.
Proof.
  destruct (invoke_context service member self func a c) as (f & -> & _). reflexivity.
Qed.

Lemma invoke_instances_dom (service member : string) (self : instance)
    (func : attribute) (a : call_args) (c : RpcContext) :
  service ∈ dom (instances c) ->
  dom (instances (fst (invoke service member self func a c))) = dom (instances c).
Proof.
  intros Hin.
  destruct (invoke_context service member self func a c) as (f & -> & [->|[d ->]]);
    simpl; [reflexivity|].
  rewrite dom_insert_L. apply subseteq_union_1_L, singleton_subseteq_l, Hin.
Qed.

Lemma try_except_raise_context {A} (m : M A) (catches : pyexn -> bool)
    (e : pyexn) (c : RpcContext) :
  fst (try_except m catches (raise e) c) = fst (m c).
Proof.
  unfold try_except, raise. destruct (m c) as [c' [a|x]]; [reflexivity|].
  destruct (catches x); reflexivity.
Qed.

(** ** The stages of dispatch_call *)

Section Stages.
Variables (service name method : string) (args : pyval) (c : RpcContext).

Let logged : RpcContext := add_log (call_line service method) c.

Lemma dispatch_split_empty :
  service = "" ->
  dispatch_split service name method args c
  = (logged, Raise (RpcException EINVAL "Invalid function path")).
Proof.
  intros ->. unfold dispatch_split, bind, modify, raise. simpl. reflexivity.
Qed.

Lemma dispatch_split_unknown :
  service <> "" -> service ∉ dom (services c) ->
  dispatch_split service name method args c
  = (logged, Raise (RpcException ENOENT ("Service " ++ service ++ " not found"))).
Proof.
  intros Hne Hnot. unfold dispatch_split, bind, modify, raise, get. simpl.
  destruct (decide (service = "")); [contradiction|].
  destruct (decide _) as [Hin|_]; [|reflexivity].
  exfalso. apply Hnot. exact Hin.
Qed.

Lemma dispatch_split_no_member (i : instance) (x : string) :
  service <> "" -> service ∈ dom (services c) ->
  instances c !! service = Some i ->
  getattr i name = Raise (AttributeError x) ->
  dispatch_split service name method args c
  = (logged, Raise (RpcException ENOENT "Method not found")).
Proof.
  intros Hne Hin Hi Hg.
  unfold dispatch_split, bind, modify, raise, get, instance_at, try_except, lift.
  simpl. destruct (decide (service = "")); [contradiction|].
  destruct (decide _) as [_|Hnot]; [|contradiction].
  change (instances (add_log (call_line service method) c)) with (instances c).
  rewrite Hi, Hg. reflexivity.
Qed.

Lemma dispatch_split_member (i : instance) (func : attribute) :
  service <> "" -> service ∈ dom (services c) ->
  instances c !! service = Some i ->
  getattr i name = Return func ->
  dispatch_split service name method args c
  = bind_and_call service name i func (args_or_empty args) logged.
Proof.
  intros Hne Hin Hi Hg.
  unfold dispatch_split, bind, modify, raise, get, instance_at, try_except, lift.
  simpl. destruct (decide (service = "")); [contradiction|].
  destruct (decide _) as [_|Hnot]; [|contradiction].
  change (instances (add_log (call_line service method) c)) with (instances c).
  rewrite Hi, Hg. reflexivity.
Qed.
End Stages.

Lemma not_object_member (name : string) :
  bool_decide (name ∈ object_members) = false -> name ∉ object_members.
Proof. apply bool_decide_eq_false_1. Qed.

(** getattr raises nothing but AttributeError. *)
Lemma getattr_raises (i : instance) (name : string) (e : pyexn) :
  getattr i name = Raise e -> e = AttributeError name.
Proof.
  unfold getattr. destruct (inst_dict i !! name); [discriminate|].
  destruct (cls_methods (inst_class i) !! name); [discriminate|].
  destruct (decide (name ∈ object_members)); [discriminate|].
  intros [= <-]. reflexivity.
Qed.

(** C6. dispatch_call splits the method path on its last dot: what comes
    before the final dot is the service name (dots included) and what comes
    after is the operation name; a path without any dot gives the empty
    service name and the call fails with EINVAL, whatever the arguments and
    the registry, without calling anything. *)
Theorem dispatch_call_splits_on_last_dot
    (service operation method : string) (args : pyval) (c : RpcContext) :
  (has_dot operation = false ->
     rpartition (service ++ "." ++ operation) = (service, ".", operation) /\
     dispatch_call (service ++ "." ++ operation) args c
     = dispatch_split service operation (service ++ "." ++ operation) args c) /\
  (has_dot method = false ->
     rpartition method = ("", "", method) /\
     snd (dispatch_call method args c)
     = Raise (RpcException EINVAL "Invalid function path") /\
     invoked (fst (dispatch_call method args c)) = invoked c).
Proof.
  split; intros H.
  - split; [apply rpartition_last, H|].
    unfold dispatch_call. rewrite (rpartition_last _ _ H). reflexivity.
  - split; [apply rpartition_no_dot, H|].
    unfold dispatch_call. rewrite (rpartition_no_dot _ H).
    rewrite dispatch_split_empty by reflexivity. split; reflexivity.
Qed.

Lemma dispatch_call_splits_on_last_dot_witness :
  rpartition "plugin.volumes.create" = ("plugin.volumes", ".", "create") /\
  snd (dispatch_call "noDotAtAll" (VDict ∅) math_context)
  = Raise (RpcException EINVAL "Invalid function path").
Proof.
  destruct (dispatch_call_splits_on_last_dot
              "plugin.volumes" "create" "noDotAtAll" (VDict ∅) math_context)
    as [Hdot Hnone].
  split.
  - apply Hdot. reflexivity.
  - apply Hnone. reflexivity.
Defined.

(** ** Unknown services *)

Lemma not_in_dom_by_lookup {A} (m : gmap string A) (k : string) :
  m !! k = None -> k ∉ dom m.
Proof. apply not_elem_of_dom. Qed.

Lemma in_dom_by_lookup {A} (m : gmap string A) (k : string) (a : A) :
  m !! k = Some a -> k ∈ dom m.
Proof. intros H. apply elem_of_dom. exists a. exact H. Qed.

(** C5, as stated, fails on a path whose part before the last dot is empty:
    the empty name is not registered, and the call fails with EINVAL, not
    ENOENT. *)
Lemma unknown_service_not_always_ENOENT :
  ~ (forall (method service sep name : string) (args : pyval) (c : RpcContext),
       rpartition method = (service, sep, name) ->
       service ∉ dom (services c) ->
       exists msg, snd (dispatch_call method args c) = Raise (RpcException ENOENT msg)).
Proof.
  intros H.
  destruct (H ".op" "" "." "op" (VDict ∅) math_context) as [msg Hmsg].
  - reflexivity.
  - apply not_in_dom_by_lookup. reflexivity.
  - vm_compute in Hmsg. discriminate.
Qed.

(** C5 (amended). When the part of the method path before the last dot is
    not empty and is not a key of the registry, dispatch_call fails with
    ENOENT ("Service <name> not found"), calls no operation and leaves the
    registry as it was. *)
Theorem dispatch_call_unknown_service
    (method service sep name : string) (args : pyval) (c : RpcContext) :
  rpartition method = (service, sep, name) ->
  service <> "" ->
  service ∉ dom (services c) ->
  snd (dispatch_call method args c)
  = Raise (RpcException ENOENT ("Service " ++ service ++ " not found")) /\
  invoked (fst (dispatch_call method args c)) = invoked c /\
  services (fst (dispatch_call method args c)) = services c /\
  instances (fst (dispatch_call method args c)) = instances c.
Proof.
  intros Hsplit Hne Hnot. unfold dispatch_call. rewrite Hsplit.
  rewrite dispatch_split_unknown by assumption. repeat split; reflexivity.
Qed.

Lemma dispatch_call_unknown_service_witness :
  snd (dispatch_call "missing.op" (VDict ∅) math_context)
  = Raise (RpcException ENOENT "Service missing not found").
Proof.
  apply (dispatch_call_unknown_service "missing.op" "missing" "." "op").
  - reflexivity.
  - discriminate.
  - apply not_in_dom_by_lookup. reflexivity.
Defined.

(** ** Arguments that do not fit the parameters *)

Lemma bind_positional_too_many (ps : list param) (l : list pyval) :
  length ps < length l -> bind_positional ps l = None.
Proof.
  revert l. induction ps as [|p ps IH]; intros [|v l] Hlen; simpl in *; try lia.
  - reflexivity.
  - rewrite IH by lia. reflexivity.
Qed.

Lemma bind_positional_missing (ps : list param) (l : list pyval) (k : nat) (p : param) :
  ps !! k = Some p -> length l <= k -> p_default p = None ->
  bind_positional ps l = None.
Proof.
  revert l k. induction ps as [|p0 ps IH]; intros l k Hp Hlen Hdef; [discriminate|].
  destruct l as [|v l]; simpl.
  - destruct k as [|k]; simpl in Hp.
    + injection Hp as ->. rewrite Hdef. reflexivity.
    + rewrite (IH [] k Hp) by (simpl; lia || exact Hdef).
      destruct (p_default p0); reflexivity.
  - destruct k as [|k]; simpl in Hlen, Hp; [lia|].
    rewrite (IH l k Hp) by (lia || exact Hdef). reflexivity.
Qed.

Lemma bind_named_missing (ps : list param) (d : gmap string pyval) (p : param) :
  p ∈ ps -> d !! p_name p = None -> p_default p = None ->
  bind_named ps d = None.
Proof.
  induction ps as [|p0 ps IH]; intros Hin Hd Hdef; [inversion Hin|].
  simpl. apply elem_of_cons in Hin as [<-|Hin].
  - rewrite Hd, Hdef. reflexivity.
  - rewrite (IH Hin Hd Hdef).
    destruct (match d !! p_name p0 with Some v => Some v | None => p_default p0 end);
      reflexivity.
Qed.

Lemma bind_keyword_unknown (ps : list param) (d : gmap string pyval) (k : string) :
  k ∈ dom d -> k ∉ (p_name <$> ps) -> bind_keyword ps d = None.
Proof.
  intros Hk Hnot. unfold bind_keyword.
  destruct (decide _) as [Hsub|]; [|reflexivity].
  exfalso. apply Hnot. apply Hsub in Hk.
  apply elem_of_list_to_set in Hk. exact Hk.
Qed.

(** The four ways in which arguments fail to fit the parameters. *)
Inductive misfit (ps : list param) : call_args -> Prop :=
| too_many_values l :
    length ps < length l -> misfit ps (Positional l)
| value_missing l k p :
    ps !! k = Some p -> length l <= k -> p_default p = None ->
    misfit ps (Positional l)
| unknown_key d k :
    k ∈ dom d -> k ∉ (p_name <$> ps) -> misfit ps (Keyword d)
| key_missing d p :
    p ∈ ps -> d !! p_name p = None -> p_default p = None ->
    misfit ps (Keyword d).

Lemma misfit_unbound (ps : list param) (a : call_args) :
  misfit ps a -> bind_args ps a = None.
Proof.
  intros [l Hl|l k p Hp Hl Hd|d k Hk Hn|d p Hp Hd Hdef]; simpl.
  - apply bind_positional_too_many, Hl.
  - apply (bind_positional_missing ps l k p Hp Hl Hd).
  - apply (bind_keyword_unknown ps d k Hk Hn).
  - unfold bind_keyword. destruct (decide _); [|reflexivity].
    apply (bind_named_missing ps d p Hp Hd Hdef).
Qed.

(** ** How parameters receive their values *)

(** Positional binding follows the order of the sequence: the k-th value
    goes to the k-th declared parameter, and there cannot be more values
    than parameters. *)
Lemma bind_positional_in_order (ps : list param) (l : list pyval) (e : env) :
  bind_positional ps l = Some e ->
  NoDup (p_name <$> ps) ->
  length l <= length ps /\
  forall k p v, ps !! k = Some p -> l !! k = Some v -> e !! p_name p = Some v.
Proof.
  revert l e. induction ps as [|p0 ps IH]; intros l e Hb Hnd.
  - destruct l; [|discriminate]. split; [reflexivity|]. intros k p v Hp. discriminate.
  - apply NoDup_cons in Hnd as [Hfresh Hnd]. destruct l as [|v0 l]; simpl in Hb.
    + split; [simpl; lia|]. intros k p v _ Hv. discriminate.
    + destruct (bind_positional ps l) as [e'|] eqn:He'; [|discriminate].
      injection Hb as <-. destruct (IH l e' He' Hnd) as [Hlen Hk].
      split; [simpl; lia|]. intros [|k] p v Hp Hv; simpl in Hp, Hv.
      * injection Hp as <-. injection Hv as <-. apply lookup_insert_eq.
      * rewrite lookup_insert_ne; [exact (Hk k p v Hp Hv)|].
        intros Heq. apply Hfresh. rewrite Heq.
        apply list_elem_of_fmap_2, list_elem_of_lookup. exists k. exact Hp.
Qed.

Lemma bind_named_by_name (ps : list param) (d : gmap string pyval) (e : env)
    (p : param) (v : pyval) :
  bind_named ps d = Some e ->
  p ∈ ps -> d !! p_name p = Some v -> e !! p_name p = Some v.
Proof.
  revert e. induction ps as [|p0 ps IH]; intros e Hb Hin Hv; [inversion Hin|].
  simpl in Hb.
  destruct (bind_named ps d) as [e'|] eqn:He'.
  - destruct (decide (p_name p0 = p_name p)) as [Heq|Hne].
    + rewrite Heq, Hv in Hb. injection Hb as <-. apply lookup_insert_eq.
    + destruct (match d !! p_name p0 with Some x => Some x | None => p_default p0 end)
        as [v0|]; [|discriminate].
      injection Hb as <-. rewrite lookup_insert_ne by exact Hne.
      apply elem_of_cons in Hin as [->|Hin]; [contradiction|].
      apply IH; [reflexivity | exact Hin | exact Hv].
  - destruct (match d !! p_name p0 with Some x => Some x | None => p_default p0 end);
      discriminate.
Qed.

(** Keyword binding goes by name: every key of the mapping names a
    declared parameter, which receives the key's value. *)
Lemma bind_keyword_by_name (ps : list param) (d : gmap string pyval) (e : env)
    (k : string) (v : pyval) :
  bind_keyword ps d = Some e ->
  d !! k = Some v ->
  (exists p, p ∈ ps /\ p_name p = k) /\ e !! k = Some v.
Proof.
  unfold bind_keyword. destruct (decide _) as [Hsub|]; [|discriminate].
  intros Hb Hv.
  assert (Hk : k ∈ (list_to_set (p_name <$> ps) : gset string)).
  { apply Hsub, elem_of_dom. exists v. exact Hv. }
  apply elem_of_list_to_set, list_elem_of_fmap in Hk as (p & -> & Hp).
  split; [exists p; split; [exact Hp | reflexivity]|].
  apply (bind_named_by_name ps d e p v Hb Hp Hv).
Qed.

(** ** Binding the arguments *)

Section Binding.
Variables (method service sep name : string) (args : pyval) (c : RpcContext).
Variables (i : instance) (func : attribute).

Hypothesis Hsplit : rpartition method = (service, sep, name).
Hypothesis Hservice : service <> "".
Hypothesis Hknown : service ∈ dom (services c).
Hypothesis Hinstance : instances c !! service = Some i.
Hypothesis Hmember : getattr i name = Return func.

Let logged : RpcContext := add_log (call_line service method) c.

Lemma dispatch_call_at_binding :
  dispatch_call method args c
  = bind_and_call service name i func (args_or_empty args) logged.
Proof.
  unfold dispatch_call. rewrite Hsplit.
  apply dispatch_split_member; assumption.
Qed.

Lemma dispatch_call_calls (a : call_args) :
  call_shape (args_or_empty args) = Some a ->
  dispatch_call method args c
  = try_except (invoke service name i func a) is_TypeError
      (raise invalid_parameters) logged.
Proof.
  intros Ha. rewrite dispatch_call_at_binding. unfold bind_and_call.
  rewrite Ha. reflexivity.
Qed.

Lemma dispatch_call_bad_container :
  call_shape (args_or_empty args) = None ->
  dispatch_call method args c
  = (logged, Raise (RpcException EINVAL
       "Function parameters should be passed as dictionary or array")).
Proof.
  intros Ha. rewrite dispatch_call_at_binding. unfold bind_and_call.
  rewrite Ha. reflexivity.
Qed.
End Binding.

(** The value a parameter receives from a mapping, and from a sequence at
    its position: the one given, or else its default. *)
Definition value_by_name (d : gmap string pyval) (p : param) : option pyval :=
  match d !! p_name p with Some v => Some v | None => p_default p end.

Definition value_at (l : list pyval) (k : nat) (p : param) : option pyval :=
  match l !! k with Some v => Some v | None => p_default p end.

(** What keyword binding and positional binding must produce. *)
Definition bound_by_name (ps : list param) (d : gmap string pyval) (e : env) : Prop :=
  dom d ⊆ list_to_set (p_name <$> ps) /\
  dom e = list_to_set (p_name <$> ps) /\
  forall p, p ∈ ps -> exists v, value_by_name d p = Some v /\ e !! p_name p = Some v.

Definition bound_in_order (ps : list param) (l : list pyval) (e : env) : Prop :=
  length l <= length ps /\
  dom e = list_to_set (p_name <$> ps) /\
  forall k p, ps !! k = Some p ->
    exists v, value_at l k p = Some v /\ e !! p_name p = Some v.

Lemma bind_named_bound (ps : list param) (d : gmap string pyval) (e : env) :
  NoDup (p_name <$> ps) ->
  bind_named ps d = Some e ->
  dom e = list_to_set (p_name <$> ps) /\
  forall p, p ∈ ps -> exists v, value_by_name d p = Some v /\ e !! p_name p = Some v.
Proof.
  revert e. induction ps as [|p0 ps IH]; intros e Hnd Hb; simpl in Hb.
  - injection Hb as <-. split; [apply dom_empty_L|]. intros p Hp. inversion Hp.
  - apply NoDup_cons in Hnd as [Hfresh Hnd].
    fold (value_by_name d p0) in Hb.
    destruct (value_by_name d p0) as [v0|] eqn:Hv0; [|discriminate].
    destruct (bind_named ps d) as [e'|] eqn:He'; [|discriminate].
    injection Hb as <-. destruct (IH e' Hnd eq_refl) as [Hdom Hvals].
    split.
    + rewrite dom_insert_L, Hdom. reflexivity.
    + intros p Hp. apply elem_of_cons in Hp as [->|Hp].
      * exists v0. split; [exact Hv0 | apply lookup_insert_eq].
      * destruct (Hvals p Hp) as (v & Hv & Hev). exists v. split; [exact Hv|].
        rewrite lookup_insert_ne; [exact Hev|].
        intros Heq. apply Hfresh. rewrite Heq. apply list_elem_of_fmap_2, Hp.
Qed.

Lemma bind_positional_bound (ps : list param) (l : list pyval) (e : env) :
  NoDup (p_name <$> ps) ->
  bind_positional ps l = Some e ->
  bound_in_order ps l e.
Proof.
  revert l e. induction ps as [|p0 ps IH]; intros l e Hnd Hb.
  - destruct l; [|discriminate]. injection Hb as <-.
    split; [reflexivity|]. split; [apply dom_empty_L|]. intros k p Hp. discriminate.
  - apply NoDup_cons in Hnd as [Hfresh Hnd].
    assert (Hrest : forall l' e' v0,
              bind_positional ps l' = Some e' ->
              dom (<[p_name p0 := v0]> e') = list_to_set (p_name <$> p0 :: ps) /\
              forall k p, ps !! k = Some p ->
                exists v, value_at l' k p = Some v /\
                          <[p_name p0 := v0]> e' !! p_name p = Some v).
    { intros l' e' v0 He'. destruct (IH l' e' Hnd He') as (_ & Hdom & Hvals).
      split; [rewrite dom_insert_L, Hdom; reflexivity|].
      intros k p Hp. destruct (Hvals k p Hp) as (v & Hv & Hev).
      exists v. split; [exact Hv|]. rewrite lookup_insert_ne; [exact Hev|].
      intros Heq. apply Hfresh. rewrite Heq.
      apply list_elem_of_fmap_2, list_elem_of_lookup. exists k. exact Hp. }
    destruct l as [|v0 l]; simpl in Hb.
    + destruct (p_default p0) as [v0|] eqn:Hd0; [|discriminate].
      destruct (bind_positional ps []) as [e'|] eqn:He'; [|discriminate].
      injection Hb as <-. destruct (Hrest [] e' v0 He') as [Hdom Hvals].
      split; [simpl; lia|]. split; [exact Hdom|].
      intros [|k] p Hp; simpl in Hp.
      * injection Hp as <-. exists v0. split; [exact Hd0 | apply lookup_insert_eq].
      * exact (Hvals k p Hp).
    + destruct (bind_positional ps l) as [e'|] eqn:He'; [|discriminate].
      injection Hb as <-. destruct (Hrest l e' v0 He') as [Hdom Hvals].
      destruct (IH l e' Hnd He') as (Hlen & _ & _).
      split; [simpl; lia|]. split; [exact Hdom|].
      intros [|k] p Hp; simpl in Hp.
      * injection Hp as <-. exists v0. split; [reflexivity | apply lookup_insert_eq].
      * exact (Hvals k p Hp).
Qed.

Lemma bind_keyword_bound (ps : list param) (d : gmap string pyval) (e : env) :
  NoDup (p_name <$> ps) ->
  bind_keyword ps d = Some e ->
  bound_by_name ps d e.
Proof.
  unfold bind_keyword. intros Hnd Hb.
  destruct (decide _) as [Hsub|]; [|discriminate].
  split; [exact Hsub|]. apply (bind_named_bound ps d e Hnd Hb).
Qed.

Lemma bind_positional_misfit (ps : list param) (l : list pyval) :
  bind_positional ps l = None -> misfit ps (Positional l).
Proof.
  revert l. induction ps as [|p0 ps IH]; intros l Hb.
  - destruct l; [discriminate|]. apply too_many_values. simpl. lia.
  - assert (Hlift : forall l' v, misfit ps (Positional l') ->
                      l = v :: l' \/ (l = [] /\ l' = []) ->
                      misfit (p0 :: ps) (Positional l)).
    { intros l' v Hm Hl. inversion Hm as [x Hlen|x k p Hp Hlen Hd| |]; subst x.
      - destruct Hl as [->|[-> ->]]; [|simpl in Hlen; lia].
        apply too_many_values. simpl. lia.
      - apply (value_missing _ _ (S k) p); [exact Hp| |exact Hd].
        destruct Hl as [->|[-> ->]]; simpl; lia. }
    destruct l as [|v0 l]; simpl in Hb.
    + destruct (p_default p0) as [v0|] eqn:Hd0.
      * destruct (bind_positional ps []) eqn:He'; [discriminate|].
        apply (Hlift [] v0 (IH [] He')). right. split; reflexivity.
      * apply (value_missing _ _ 0 p0); [reflexivity | simpl; lia | exact Hd0].
    + destruct (bind_positional ps l) eqn:He'; [discriminate|].
      apply (Hlift l v0 (IH l He')). left. reflexivity.
Qed.

Lemma bind_named_misfit (ps : list param) (d : gmap string pyval) :
  bind_named ps d = None ->
  exists p, p ∈ ps /\ d !! p_name p = None /\ p_default p = None.
Proof.
  induction ps as [|p0 ps IH]; simpl; [discriminate|]. intros Hb.
  destruct (d !! p_name p0) as [v|] eqn:Hd.
  - destruct (bind_named ps d) eqn:He'; [discriminate|].
    destruct (IH eq_refl) as (p & Hp & Hpd & Hdef).
    exists p. split; [right; exact Hp|]. split; assumption.
  - destruct (p_default p0) as [v|] eqn:Hdef.
    + destruct (bind_named ps d) eqn:He'; [discriminate|].
      destruct (IH eq_refl) as (p & Hp & Hpd & Hdef').
      exists p. split; [right; exact Hp|]. split; assumption.
    + exists p0. split; [left|]. split; assumption.
Qed.

Lemma bind_keyword_misfit (ps : list param) (d : gmap string pyval) :
  bind_keyword ps d = None -> misfit ps (Keyword d).
Proof.
  unfold bind_keyword. destruct (decide _) as [Hsub|Hnot]; intros Hb.
  - destruct (bind_named_misfit ps d Hb) as (p & Hp & Hd & Hdef).
    apply (key_missing ps d p Hp Hd Hdef).
  - assert (Hex : set_Exists (fun k => k ∉ (p_name <$> ps)) (dom d)).
    { apply (not_set_Forall_Exists (fun k => k ∈ (p_name <$> ps))).
      intros Hall. apply Hnot. intros k Hk. apply elem_of_list_to_set, (Hall k Hk). }
    destruct Hex as (k & Hk & Hknot). apply (unknown_key ps d k Hk Hknot).
Qed.

Lemma bind_args_misfit (ps : list param) (a : call_args) :
  bind_args ps a = None -> misfit ps a.
Proof.
  destruct a as [l|d]; [apply bind_positional_misfit | apply bind_keyword_misfit].
Qed.

(** The items of an ordered sequence: of a list, and of a tuple. *)
Definition sequence_items (args : pyval) : option (list pyval) :=
  match args with
  | VList l => Some l
  | VTuple l => Some l
  | _ => None
  end.

(** C4, as stated, fails on a tuple: it is an ordered sequence, yet
    dispatch_call does not call the operation with its items bound by
    position (which for [math.add] and (2, 3) would return 5); it fails with
    EINVAL, because the test is [type(args) is list]. *)
Lemma tuple_is_not_bound_by_position :
  ~ (forall (path service sep name : string) (args : pyval) (c : RpcContext)
            (i : instance) (func : attribute) (l : list pyval),
       rpartition path = (service, sep, name) ->
       service <> "" ->
       service ∈ dom (services c) ->
       instances c !! service = Some i ->
       getattr i name = Return func ->
       sequence_items args = Some l ->
       dispatch_call path args c
       = try_except (invoke service name i func (Positional l)) is_TypeError
           (raise invalid_parameters) (add_log (call_line service path) c)).
Proof.
  intros H.
  specialize (H "math.add" "math" "." "add" (VTuple [VInt 2; VInt 3]) math_context
                math_instance (BoundMethod math_add) [VInt 2; VInt 3]).
  assert (Hsnd : snd (dispatch_call "math.add" (VTuple [VInt 2; VInt 3]) math_context)
                 = Return (VInt 5)).
  { rewrite H.
    - vm_compute. reflexivity.
    - reflexivity.
    - discriminate.
    - apply (in_dom_by_lookup _ _ MathService). reflexivity.
    - reflexivity.
    - reflexivity.
    - reflexivity. }
  vm_compute in Hsnd. discriminate.
Qed.

(** C4 (amended). When a call reaches the binding stage on an operation
    (a bound method whose parameters have distinct names): a dict makes
    dispatch_call call the operation with keyword binding, every key going
    to the parameter of that name and the other parameters taking their
    defaults; a list makes it call the operation with positional binding,
    the k-th value going to the k-th parameter and the others taking their
    defaults; the body then runs on the environment so bound, and its
    outcome is the call's (a TypeError apart); when the arguments do not
    fit the parameters the call fails with EINVAL and the body is not run.
    Any other value, a tuple included, fails with EINVAL without the
    operation being called.  None counts as the empty dict. *)
Theorem dispatch_call_binds_dict_and_list
    (path service sep name : string) (args : pyval) (c : RpcContext)
    (i : instance) (m : method) :
  rpartition path = (service, sep, name) ->
  service <> "" ->
  service ∈ dom (services c) ->
  instances c !! service = Some i ->
  getattr i name = Return (BoundMethod m) ->
  NoDup (p_name <$> m_params m) ->
  let logged := add_log (call_line service path) c in
  let entered a :=
    add_invoked {| ce_service := service; ce_member := name; ce_args := a |} logged in
  let runs a e :=
    dispatch_call path args c
    = try_except (run_body service i (m_body m) e) is_TypeError
        (raise invalid_parameters) (entered a) /\
    forall f, m_body m = BodyFun f ->
      snd (dispatch_call path args c)
      = remapped (snd (f (dispatcher c) (inst_dict i) e)) in
  let rejects a :=
    misfit (m_params m) a /\
    dispatch_call path args c = (entered a, Raise invalid_parameters) in
  (forall d, args_or_empty args = VDict d ->
     (exists e, bound_by_name (m_params m) d e /\ runs (Keyword d) e) \/
     rejects (Keyword d)) /\
  (forall l, args_or_empty args = VList l ->
     (exists e, bound_in_order (m_params m) l e /\ runs (Positional l) e) \/
     rejects (Positional l)) /\
  ((forall d, args_or_empty args <> VDict d) ->
   (forall l, args_or_empty args <> VList l) ->
     dispatch_call path args c
     = (logged, Raise (RpcException EINVAL
          "Function parameters should be passed as dictionary or array"))).
Proof.
  intros Hsplit Hne Hin Hi Hg Hnd logged entered runs rejects.
  pose proof (dispatch_call_calls path service sep name args c i (BoundMethod m)
                Hsplit Hne Hin Hi Hg) as Hcall.
  assert (Hbound : forall a,
            call_shape (args_or_empty args) = Some a ->
            (exists e, bind_args (m_params m) a = Some e /\ runs a e) \/ rejects a).
  { intros a Ha. unfold runs, rejects. rewrite (Hcall a Ha).
    unfold try_except at 1 3 4. unfold invoke, bind, modify, raise. simpl.
    fold logged. fold (entered a).
    destruct (bind_args (m_params m) a) as [e|] eqn:Hb.
    - left. exists e. split; [reflexivity|]. split; [reflexivity|].
      intros f Hf. rewrite Hf. unfold try_except, run_body, bind, get, modify, lift.
      simpl. destruct (f (dispatcher c) (inst_dict i) e) as [d' [v|x]]; [reflexivity|].
      simpl. destruct (is_TypeError x); reflexivity.
    - right. split; [apply bind_args_misfit, Hb | reflexivity]. }
  split; [|split].
  - intros d Hd. destruct (Hbound (Keyword d)) as [(e & Hb & Hruns)|Hrej].
    + rewrite Hd. reflexivity.
    + left. exists e. split; [apply (bind_keyword_bound _ _ _ Hnd Hb) | exact Hruns].
    + right. exact Hrej.
  - intros l Hl. destruct (Hbound (Positional l)) as [(e & Hb & Hruns)|Hrej].
    + rewrite Hl. reflexivity.
    + left. exists e. split; [apply (bind_positional_bound _ _ _ Hnd Hb) | exact Hruns].
    + right. exact Hrej.
  - intros Hdict Hlist.
    apply (dispatch_call_bad_container path service sep name args c i (BoundMethod m)
             Hsplit Hne Hin Hi Hg).
    destruct (args_or_empty args) as [| | | |l|d| |]; try reflexivity.
    + destruct (Hlist l). reflexivity.
    + destruct (Hdict d). reflexivity.
Qed.

Lemma dispatch_call_binds_dict_and_list_witness :
  snd (dispatch_call "math.add" (VTuple [VInt 2; VInt 3]) math_context)
  = Raise (RpcException EINVAL
      "Function parameters should be passed as dictionary or array") /\
  snd (dispatch_call "math.add" (VList [VInt 2; VInt 3]) math_context)
  = Return (VInt 5).
Proof.
  assert (Hnd : NoDup (p_name <$> m_params math_add)).
  { simpl. repeat constructor; intros Hin;
      repeat (apply elem_of_cons in Hin as [Hin|Hin]; [discriminate|]); inversion Hin. }
  split.
  - destruct (dispatch_call_binds_dict_and_list
                "math.add" "math" "." "add" (VTuple [VInt 2; VInt 3]) math_context
                math_instance math_add) as (_ & _ & Hother).
    + reflexivity.
    + discriminate.
    + apply (in_dom_by_lookup _ _ MathService). reflexivity.
    + reflexivity.
    + reflexivity.
    + exact Hnd.
    + rewrite Hother; [reflexivity | discriminate | discriminate].
  - destruct (dispatch_call_binds_dict_and_list
                "math.add" "math" "." "add" (VList [VInt 2; VInt 3]) math_context
                math_instance math_add) as (_ & Hlist & _).
    + reflexivity.
    + discriminate.
    + apply (in_dom_by_lookup _ _ MathService). reflexivity.
    + reflexivity.
    + reflexivity.
    + exact Hnd.
    + destruct (Hlist [VInt 2; VInt 3] eq_refl) as [(e & Hb & _ & Hout)|[Hmis _]].
      * rewrite (Hout _ eq_refl). destruct Hb as (_ & _ & Hvals).
        destruct (Hvals 0 (required "a") eq_refl) as (va & Hva & Hea).
        destruct (Hvals 1 (required "b") eq_refl) as (vb & Hvb & Heb).
        injection Hva as <-. injection Hvb as <-.
        unfold arg. simpl in Hea, Heb. rewrite Hea, Heb. reflexivity.
      * apply misfit_unbound in Hmis. vm_compute in Hmis. discriminate.
Defined.

(** ** Which failures are remapped *)

(** C1, as stated, fails when the body of a correctly bound operation
    raises TypeError: [math.add] called with a = 2 and b = "x" binds both
    parameters, its body raises TypeError on [a + b], and the caller gets
    EINVAL "Invalid function parameters" instead of that TypeError. *)
Lemma body_TypeError_is_remapped :
  ~ (forall (path service sep name : string) (args : pyval) (c : RpcContext)
            (i : instance) (m : method) (a : call_args) (e : env) (x : pyexn),
       rpartition path = (service, sep, name) ->
       service <> "" ->
       service ∈ dom (services c) ->
       instances c !! service = Some i ->
       getattr i name = Return (BoundMethod m) ->
       call_shape (args_or_empty args) = Some a ->
       bind_args (m_params m) a = Some e ->
       snd (run_body service i (m_body m) e
              (add_invoked {| ce_service := service; ce_member := name; ce_args := a |}
                 (add_log (call_line service path) c))) = Raise x ->
       snd (dispatch_call path args c) = Raise x).
Proof.
  intros H.
  pose (d := ({[ "a" := VInt 2; "b" := VStr "x" ]} : gmap string pyval)).
  specialize (H "math.add" "math" "." "add" (VDict d) math_context
                math_instance math_add (Keyword d) d
                (TypeError "unsupported operand type(s) for +")).
  assert (Hgoal : snd (dispatch_call "math.add" (VDict d) math_context)
                  = Raise (TypeError "unsupported operand type(s) for +")).
  { apply H.
    - reflexivity.
    - discriminate.
    - apply (in_dom_by_lookup _ _ MathService). reflexivity.
    - reflexivity.
    - reflexivity.
    - reflexivity.
    - vm_compute. reflexivity.
    - vm_compute. reflexivity. }
  vm_compute in Hgoal. discriminate.
Qed.

(** C1 (amended). When dispatch_call calls an operation with a mapping or
    a sequence: a binding failure is remapped to EINVAL "Invalid function
    parameters"; a result is returned as it is; an exception raised by the
    body of the bound operation propagates unchanged unless it is a
    TypeError, which is remapped to EINVAL like a binding failure. *)
Theorem dispatch_call_remaps_TypeError_only
    (path service sep name : string) (args : pyval) (c : RpcContext)
    (i : instance) (m : method) (a : call_args) :
  rpartition path = (service, sep, name) ->
  service <> "" ->
  service ∈ dom (services c) ->
  instances c !! service = Some i ->
  getattr i name = Return (BoundMethod m) ->
  call_shape (args_or_empty args) = Some a ->
  let entered :=
    add_invoked {| ce_service := service; ce_member := name; ce_args := a |}
      (add_log (call_line service path) c) in
  (bind_args (m_params m) a = None ->
     dispatch_call path args c = (entered, Raise invalid_parameters)) /\
  (forall e c' v,
     bind_args (m_params m) a = Some e ->
     run_body service i (m_body m) e entered = (c', Return v) ->
     dispatch_call path args c = (c', Return v)) /\
  (forall e c' x,
     bind_args (m_params m) a = Some e ->
     run_body service i (m_body m) e entered = (c', Raise x) ->
     is_TypeError x = false ->
     dispatch_call path args c = (c', Raise x)) /\
  (forall e c' x,
     bind_args (m_params m) a = Some e ->
     run_body service i (m_body m) e entered = (c', Raise x) ->
     is_TypeError x = true ->
     dispatch_call path args c = (c', Raise invalid_parameters)).
Proof.
  intros Hsplit Hne Hin Hi Hg Ha entered.
  rewrite (dispatch_call_calls _ _ _ _ _ _ _ _ Hsplit Hne Hin Hi Hg a Ha).
  unfold try_except, invoke, bind, modify, raise. simpl. fold entered.
  repeat split.
  - intros ->. reflexivity.
  - intros e c' v -> ->. reflexivity.
  - intros e c' x -> -> ->. reflexivity.
  - intros e c' x -> -> ->. reflexivity.
Qed.

Lemma dispatch_call_remaps_TypeError_only_witness :
  snd (dispatch_call "flaky.boom" (VList []) flaky_context)
  = Raise (OtherError "ValueError" "boom") /\
  snd (dispatch_call "math.add" (VDict {[ "a" := VInt 2 ]}) math_context)
  = Raise invalid_parameters.
Proof.
  split.
  - destruct (dispatch_call_remaps_TypeError_only
                "flaky.boom" "flaky" "." "boom" (VList []) flaky_context
                flaky_instance flaky_boom (Positional []))
      as (_ & _ & Hraise & _).
    + reflexivity.
    + discriminate.
    + apply (in_dom_by_lookup _ _ FlakyService). reflexivity.
    + reflexivity.
    + reflexivity.
    + reflexivity.
    + erewrite Hraise.
      * reflexivity.
      * reflexivity.
      * vm_compute. reflexivity.
      * reflexivity.
  - destruct (dispatch_call_remaps_TypeError_only
                "math.add" "math" "." "add" (VDict {[ "a" := VInt 2 ]}) math_context
                math_instance math_add (Keyword {[ "a" := VInt 2 ]}))
      as (Hbind & _).
    + reflexivity.
    + discriminate.
    + apply (in_dom_by_lookup _ _ MathService). reflexivity.
    + reflexivity.
    + reflexivity.
    + reflexivity.
    + rewrite Hbind; reflexivity.
Defined.

(** ** Enumeration of a service's operations *)

Lemma getmembers_ismethod_spec (i : instance) (name : string) (m : method) :
  (name, m) ∈ getmembers_ismethod i <->
  inst_dict i !! name = None /\ m_static m = false /\
  cls_methods (inst_class i) !! name = Some m.
Proof.
  unfold getmembers_ismethod.
  rewrite list_elem_of_filter, merge_sort_Permutation, elem_of_map_to_list.
  simpl. split; [intros [[? ?] ?] | intros (? & ? & ?)]; repeat split; assumption.
Qed.

Lemma getmembers_ismethod_getattr (i : instance) (name : string) (m : method) :
  (name, m) ∈ getmembers_ismethod i <-> getattr i name = Return (BoundMethod m).
Proof.
  rewrite getmembers_ismethod_spec. unfold getattr.
  destruct (inst_dict i !! name) as [v|].
  - split; [intros [? _]; discriminate | discriminate].
  - destruct (cls_methods (inst_class i) !! name) as [m'|].
    + destruct (m_static m') eqn:Hs.
      * split; [intros (_ & Hm & [= ->]); congruence | discriminate].
      * split; [intros (_ & _ & [= ->]); reflexivity|].
        intros [= ->]. split; [reflexivity|]. split; [exact Hs | reflexivity].
    + destruct (decide (name ∈ object_members));
        (split; [intros (_ & _ & ?); discriminate | discriminate]).
Qed.

Lemma enumerate_loop_spec (members : list (string * method)) (name : string) :
  name ∈ enumerate_loop members <->
  (exists m, (name, m) ∈ members) /\
  startswith_underscore name = false /\ reserved name = false.
Proof.
  induction members as [|[n m] rest IH]; simpl.
  - split; [intros H; inversion H | intros [[m H] _]; inversion H].
  - assert (Hcons : (exists m0, (name, m0) ∈ (n, m) :: rest)
                    <-> name = n \/ exists m0, (name, m0) ∈ rest).
    { split.
      - intros [m0 H]. apply elem_of_cons in H as [[= -> ->]|H]; [left; reflexivity|].
        right. exists m0. exact H.
      - intros [->|[m0 H]]; [exists m; left | exists m0; right; exact H]. }
    rewrite Hcons.
    destruct (startswith_underscore n) eqn:Eu; [|destruct (reserved n) eqn:Er].
    + rewrite IH. split; [intros (H & Hu & Hr); auto|].
      intros ([->|H] & Hu & Hr); [congruence | auto].
    + rewrite IH. split; [intros (H & Hu & Hr); auto|].
      intros ([->|H] & Hu & Hr); [congruence | auto].
    + rewrite elem_of_cons, IH. split.
      * intros [->|(H & Hu & Hr)]; auto.
      * intros ([->|H] & Hu & Hr); auto.
Qed.

Lemma reserved_false (name : string) :
  reserved name = false <-> name <> "initialize" /\ name <> "enumerate_methods".
Proof.
  unfold reserved. rewrite orb_false_iff, !bool_decide_eq_false. reflexivity.
Qed.

(** C7, as stated, fails on a static method: [version] of ToolService is
    a publicly named callable member, neither reserved nor private, yet the
    enumeration leaves it out, because [inspect.ismethod] accepts bound
    methods only. *)
Lemma static_method_is_not_listed :
  ~ (forall (self : instance) (name : string) (f : attribute),
       getattr self name = Return f ->
       is_callable f = true ->
       startswith_underscore name = false ->
       name <> "initialize" ->
       name <> "enumerate_methods" ->
       name ∈ enumerate_methods self).
Proof.
  intros H.
  specialize (H tool_instance "version" (StaticMethod tool_version)).
  assert (Hin : "version" ∈ enumerate_methods tool_instance).
  { apply H; reflexivity || discriminate. }
  unfold enumerate_methods in Hin. apply enumerate_loop_spec in Hin as ([m Hm] & _).
  apply getmembers_ismethod_getattr in Hm. vm_compute in Hm. discriminate.
Qed.

(** The static method is nevertheless reached by dispatch_call. *)
Example static_method_is_dispatched :
  instances tool_context !! "tool" = Some tool_instance /\
  snd (dispatch_call "tool.version" (VList []) tool_context) = Return (VStr "1.0").
Proof. split; vm_compute; reflexivity. Qed.

(** C7 (amended). The enumeration of a service instance lists exactly the
    members that are bound methods of the instance (what
    [inspect.ismethod] accepts), whose name does not begin with an
    underscore and is neither "initialize" nor "enumerate_methods": none of
    the excluded names is ever listed, and every other bound method is. *)
Theorem enumerate_methods_lists_public_operations (self : instance) (name : string) :
  name ∈ enumerate_methods self <->
  (exists m, getattr self name = Return (BoundMethod m)) /\
  startswith_underscore name = false /\
  name <> "initialize" /\
  name <> "enumerate_methods".
Proof.
  unfold enumerate_methods. rewrite enumerate_loop_spec, reserved_false.
  split; intros ([m Hm] & Hrest); (split; [exists m|exact Hrest]);
    apply getmembers_ismethod_getattr; exact Hm.
Qed.

Lemma enumerate_methods_lists_public_operations_witness :
  ("add" ∈ enumerate_methods math_instance) /\
  ("_secret" ∉ enumerate_methods math_instance) /\
  ("initialize" ∉ enumerate_methods math_instance) /\
  ("enumerate_methods" ∉ enumerate_methods math_instance).
Proof.
  split; [|split; [|split]].
  - apply (proj2 (enumerate_methods_lists_public_operations math_instance "add")).
    split; [exists math_add; reflexivity|].
    split; [reflexivity|]. split; discriminate.
  - intros H.
    apply (proj1 (enumerate_methods_lists_public_operations math_instance "_secret")) in H.
    destruct H as (_ & Hu & _). discriminate Hu.
  - intros H.
    apply (proj1 (enumerate_methods_lists_public_operations math_instance "initialize")) in H.
    destruct H as (_ & _ & Hi & _). apply Hi. reflexivity.
  - intros H.
    apply (proj1 (enumerate_methods_lists_public_operations
                    math_instance "enumerate_methods")) in H.
    destruct H as (_ & _ & _ & He). apply He. reflexivity.
Defined.

(** ** Members that are not public *)

(** "Method not found" is the answer exactly when [getattr] finds no
    attribute of that name; nothing looks at the name itself. *)
Lemma dispatch_call_method_not_found
    (path service sep name : string) (args : pyval) (c : RpcContext) (i : instance) :
  rpartition path = (service, sep, name) ->
  service <> "" ->
  service ∈ dom (services c) ->
  instances c !! service = Some i ->
  inst_dict i !! name = None ->
  cls_methods (inst_class i) !! name = None ->
  name ∉ object_members ->
  snd (dispatch_call path args c) = Raise (RpcException ENOENT "Method not found").
Proof.
  intros Hsplit Hne Hin Hi Hd Hm Hobj. unfold dispatch_call. rewrite Hsplit.
  rewrite (dispatch_split_no_member _ _ _ _ _ i name); try assumption; [reflexivity|].
  unfold getattr. rewrite Hd, Hm.
  destruct (decide _); [contradiction | reflexivity].
Qed.

(** C2 on the code: the private member [_secret] of the service registered
    as "math" is found and called by dispatch_call, which returns its
    result 42 instead of failing with ENOENT; so is the reserved
    [enumerate_methods], whose generator is returned, and [initialize],
    which is run again on the instance; none of the three is listed by the
    enumeration. *)
Theorem dispatch_call_reaches_private_members :
  startswith_underscore "_secret" = true /\
  ("_secret" ∉ enumerate_methods math_instance) /\
  snd (dispatch_call "math._secret" (VDict ∅) math_context) = Return (VInt 42) /\
  invoked (fst (dispatch_call "math._secret" (VDict ∅) math_context))
  = (invoked math_context
     ++ [{| ce_service := "math"; ce_member := "_secret"; ce_args := Keyword ∅ |}])%list /\
  snd (dispatch_call "math.enumerate_methods" (VList []) math_context)
  = Return (VObject "generator") /\
  snd (dispatch_call "math.initialize" (VList [VInt 0]) math_context)
  = Return VNone /\
  instances (fst (dispatch_call "math.initialize" (VList [VInt 0]) math_context))
    !! "math"
  = Some {| inst_class := MathService;
            inst_dict := {[ "_MathService__context" := VInt 0 ]} |}.
Proof.
  split; [reflexivity|]. split.
  - unfold enumerate_methods. rewrite enumerate_loop_spec.
    intros (_ & Hu & _). discriminate Hu.
  - repeat split; vm_compute; reflexivity.
Qed.

(** ** Registration *)

Section Registration.
Variables (name : string) (cl : clazz) (c : RpcContext).

Let classed : RpcContext := set_services <[name := cl]> c.

(** When [clazz()] raises, only the class has been stored. *)
Lemma register_service_unbuilt (e : pyexn) :
  cls_new cl = Raise e ->
  register_service name cl c = (classed, Raise e).
Proof.
  intros H. unfold register_service, bind, modify, lift. simpl. rewrite H. reflexivity.
Qed.

Variable d : attrs.
Hypothesis Hnew : cls_new cl = Return d.

Let fresh : instance := {| inst_class := cl; inst_dict := d |}.
Let stored : RpcContext := set_instances <[name := fresh]> classed.

Lemma register_service_no_initializer (e : pyexn) :
  getattr fresh "initialize" = Raise e ->
  register_service name cl c = (stored, Raise e).
Proof.
  intros H. unfold register_service, bind, modify, lift, instance_at. simpl.
  rewrite Hnew. simpl. rewrite lookup_insert_eq. fold fresh. rewrite H. reflexivity.
Qed.

Lemma register_service_initializes (f : attribute) :
  getattr fresh "initialize" = Return f ->
  register_service name cl c
  = (invoke name "initialize" fresh f (Positional [context_ref]) ;;; ret tt) stored.
Proof.
  intros H. unfold register_service, bind, modify, lift, instance_at. simpl.
  rewrite Hnew. simpl. rewrite lookup_insert_eq. fold fresh. rewrite H. reflexivity.
Qed.

Lemma register_service_services :
  services (fst (register_service name cl c)) = <[name := cl]> (services c).
Proof.
  destruct (getattr fresh "initialize") as [f|e] eqn:Hf.
  - rewrite (register_service_initializes f Hf). unfold bind, ret.
    pose proof (invoke_services name "initialize" fresh f (Positional [context_ref]) stored) as Hs.
    destruct (invoke _ _ _ _ _ _) as [c' [v|x]]; exact Hs.
  - rewrite (register_service_no_initializer e Hf). reflexivity.
Qed.

(** The instance found under [name] afterwards is of the class given. *)
Lemma register_service_instance :
  exists d', instances (fst (register_service name cl c))
             = <[name := {| inst_class := cl; inst_dict := d' |}]> (instances c).
Proof.
  destruct (getattr fresh "initialize") as [f|e] eqn:Hf.
  - rewrite (register_service_initializes f Hf). unfold bind, ret.
    destruct (invoke_context name "initialize" fresh f (Positional [context_ref]) stored)
      as (g & Hg & Ht).
    destruct (invoke _ _ _ _ _ _) as [c' [v|x]]; simpl in *; subst c';
      (destruct Ht as [->|[d' ->]]; simpl;
       [exists d; reflexivity | exists d'; apply insert_insert_eq]).
  - rewrite (register_service_no_initializer e Hf). exists d. reflexivity.
Qed.
End Registration.

(** C3, as stated, fails: the instance is stored under its name before its
    initializer is called, so when the initializer raises, the instance
    stays registered although its initialization never completed. *)
Lemma registration_exposes_uninitialized_instance :
  ~ (forall (name : string) (cl : clazz) (c : RpcContext) (i : instance),
       instances c !! name = None ->
       instances (fst (register_service name cl c)) !! name = Some i ->
       snd (register_service name cl c) = Return tt).
Proof.
  intros H.
  specialize (H "flaky" FlakyService (empty_context quiet) flaky_instance).
  assert (Hret : snd (register_service "flaky" FlakyService (empty_context quiet))
                 = Return tt).
  { apply H; reflexivity. }
  vm_compute in Hret. discriminate.
Qed.

(** A call dispatched after the failed registration reaches that instance. *)
Example dispatch_call_reaches_uninitialized_instance :
  snd (register_service "flaky" FlakyService (empty_context quiet))
  = Raise (OtherError "IOError" "no datastore") /\
  instances flaky_context !! "flaky" = Some flaky_instance /\
  snd (dispatch_call "flaky.ping" (VList []) flaky_context) = Return (VStr "pong") /\
  invoked (fst (dispatch_call "flaky.ping" (VList []) flaky_context))
  = (invoked flaky_context
     ++ [{| ce_service := "flaky"; ce_member := "ping"; ce_args := Positional [] |}])%list.
Proof. repeat split; vm_compute; reflexivity. Qed.

(** C3 (amended). For a class that can be constructed and has an
    initializer, register_service stores the class and the new instance
    under the name and then calls the instance's [initialize] with the
    context, exactly once: the context on which the initializer runs
    already shows the instance under its name.  When the registration
    returns, lookups find an instance of the class under the name. *)
Theorem register_service_stores_then_initializes
    (name : string) (cl : clazz) (c : RpcContext) (d : attrs) (f : attribute) :
  cls_new cl = Return d ->
  let fresh := {| inst_class := cl; inst_dict := d |} in
  getattr fresh "initialize" = Return f ->
  let stored := set_instances <[name := fresh]> (set_services <[name := cl]> c) in
  let after := fst (register_service name cl c) in
  instances stored !! name = Some fresh /\
  register_service name cl c
  = (invoke name "initialize" fresh f (Positional [context_ref]) ;;; ret tt) stored /\
  invoked after
  = (invoked c ++ [{| ce_service := name; ce_member := "initialize";
                      ce_args := Positional [context_ref] |}])%list /\
  services after !! name = Some cl /\
  (snd (register_service name cl c) = Return tt ->
   exists i, instances after !! name = Some i /\ inst_class i = cl).
Proof.
  intros Hnew fresh Hinit stored after.
  split; [apply lookup_insert_eq|].
  split; [apply (register_service_initializes name cl c d Hnew f Hinit)|].
  split; [|split].
  - unfold after. rewrite (register_service_initializes name cl c d Hnew f Hinit).
    unfold bind, ret.
    pose proof (invoke_invoked name "initialize" fresh f (Positional [context_ref]) stored) as Hi.
    destruct (invoke _ _ _ _ _ _) as [c' [v|x]]; exact Hi.
  - unfold after. rewrite (register_service_services name cl c d Hnew).
    apply lookup_insert_eq.
  - intros _. destruct (register_service_instance name cl c d Hnew) as [d' Hd'].
    exists {| inst_class := cl; inst_dict := d' |}. unfold after. rewrite Hd'.
    split; [apply lookup_insert_eq | reflexivity].
Qed.

Lemma register_service_stores_then_initializes_witness :
  invoked math_context
  = [{| ce_service := "math"; ce_member := "initialize";
        ce_args := Positional [context_ref] |}] /\
  services math_context !! "math" = Some MathService.
Proof.
  destruct (register_service_stores_then_initializes
              "math" MathService (empty_context quiet) ∅
              (BoundMethod (def [required "context"]
                 (store (fun e => Some [("_MathService__context", arg e "context")])))))
    as (_ & _ & Hinvoked & Hclass & _).
  - reflexivity.
  - reflexivity.
  - split; [exact Hinvoked | exact Hclass].
Defined.

(** ** Unregistration *)

Section Unregistration.
Variables (name : string) (c : RpcContext).

Lemma unregister_service_absent :
  name ∉ dom (services c) -> unregister_service name c = (c, Return tt).
Proof.
  intros H. unfold unregister_service, bind, get, ret.
  destruct (decide _); [contradiction | reflexivity].
Qed.

Lemma unregister_service_present (i : instance) :
  name ∈ dom (services c) ->
  instances c !! name = Some i ->
  unregister_service name c
  = (set_services (delete name) (set_instances (delete name) c), Return tt).
Proof.
  intros Hin Hi. unfold unregister_service, bind, get, ret, instance_at, modify.
  destruct (decide _); [|contradiction]. rewrite Hi. reflexivity.
Qed.

(** A name that has a class but no instance cannot be unregistered. *)
Lemma unregister_service_half :
  name ∈ dom (services c) ->
  instances c !! name = None ->
  unregister_service name c = (c, Raise (KeyError name)).
Proof.
  intros Hin Hi. unfold unregister_service, bind, get, ret, instance_at, modify.
  destruct (decide _); [|contradiction]. rewrite Hi. reflexivity.
Qed.
End Unregistration.

(** The context after [register_service("x", NeedsArgument)] raised. *)
Definition half_registered : RpcContext :=
  fst (register_service "x" NeedsArgument (empty_context quiet)).

(** C8, as stated, fails on a name that a failed registration left in the
    class mapping only: the name is a key of the registry, yet
    unregister_service raises KeyError and removes nothing. *)
Lemma unregister_service_can_raise :
  ~ (forall (name : string) (c : RpcContext),
       (name ∈ dom (services c) ->
          snd (unregister_service name c) = Return tt /\
          name ∉ dom (services (fst (unregister_service name c)))) /\
       (name ∉ dom (services c) ->
          unregister_service name c = (c, Return tt))).
Proof.
  intros H. destruct (H "x" half_registered) as [Hpresent _].
  destruct Hpresent as [Hret _].
  - apply (in_dom_by_lookup _ _ NeedsArgument). reflexivity.
  - rewrite unregister_service_half in Hret.
    + discriminate.
    + apply (in_dom_by_lookup _ _ NeedsArgument). reflexivity.
    + reflexivity.
Qed.

(** C8 (amended). unregister_service removes the name from both mappings,
    leaving every other entry, when both hold it; when the class mapping
    does not hold the name it raises nothing and leaves the context as it
    was. *)
Theorem unregister_service_removes_or_ignores (name : string) (c : RpcContext) :
  (name ∈ dom (services c) -> name ∈ dom (instances c) ->
     snd (unregister_service name c) = Return tt /\
     services (fst (unregister_service name c)) = delete name (services c) /\
     instances (fst (unregister_service name c)) = delete name (instances c) /\
     invoked (fst (unregister_service name c)) = invoked c) /\
  (name ∉ dom (services c) ->
     unregister_service name c = (c, Return tt)).
Proof.
  split.
  - intros Hs Hi. apply elem_of_dom in Hi as [i Hi].
    rewrite (unregister_service_present name c i Hs Hi). repeat split; reflexivity.
  - apply unregister_service_absent.
Qed.

Lemma unregister_service_removes_or_ignores_witness :
  services (fst (unregister_service "math" math_context))
  = delete "math" (services math_context) /\
  unregister_service "geometry" math_context = (math_context, Return tt).
Proof.
  split.
  - apply (proj1 (unregister_service_removes_or_ignores "math" math_context)).
    + apply (in_dom_by_lookup _ _ MathService). reflexivity.
    + apply (in_dom_by_lookup _ _ math_instance). reflexivity.
  - apply (proj2 (unregister_service_removes_or_ignores "geometry" math_context)).
    apply not_in_dom_by_lookup. reflexivity.
Defined.

(** ** The two mappings of the registry *)

Lemma run_op_key_sets (o : registry_op) (c : RpcContext) :
  constructs o ->
  dom (services c) = dom (instances c) ->
  dom (services (fst (run_op o c))) = dom (instances (fst (run_op o c))).
Proof.
  destruct o as [name cl|name]; simpl.
  - intros [d Hd] Heq.
    rewrite (register_service_services name cl c d Hd).
    destruct (register_service_instance name cl c d Hd) as [d' ->].
    rewrite !dom_insert_L, Heq. reflexivity.
  - intros _ Heq. destruct (decide (name ∈ dom (services c))) as [Hin|Hnot].
    + assert (Hi : name ∈ dom (instances c)) by (rewrite <- Heq; exact Hin).
      apply elem_of_dom in Hi as [i Hi].
      rewrite (unregister_service_present name c i Hin Hi). simpl.
      rewrite !dom_delete_L, Heq. reflexivity.
    + rewrite (unregister_service_absent name c Hnot). exact Heq.
Qed.

(** Whatever happens, a name with an instance has a class. *)
Lemma run_op_instances_have_class (o : registry_op) (c : RpcContext) :
  dom (instances c) ⊆ dom (services c) ->
  dom (instances (fst (run_op o c))) ⊆ dom (services (fst (run_op o c))).
Proof.
  destruct o as [name cl|name]; simpl; intros Hsub.
  - destruct (cls_new cl) as [d|e] eqn:Hd.
    + rewrite (register_service_services name cl c d Hd).
      destruct (register_service_instance name cl c d Hd) as [d' ->].
      rewrite !dom_insert_L. apply union_mono_l, Hsub.
    + rewrite (register_service_unbuilt name cl c e Hd). simpl.
      rewrite dom_insert_L. apply union_subseteq_r', Hsub.
  - destruct (decide (name ∈ dom (services c))) as [Hin|Hnot].
    + destruct (instances c !! name) as [i|] eqn:Hi.
      * rewrite (unregister_service_present name c i Hin Hi). simpl.
        rewrite !dom_delete_L. apply difference_mono_r, Hsub.
      * rewrite (unregister_service_half name c Hin Hi). exact Hsub.
    + rewrite (unregister_service_absent name c Hnot). exact Hsub.
Qed.

(** C9, as stated, fails: registering a class whose constructor raises
    leaves the name in the class mapping and not in the instance mapping. *)
Lemma key_sets_can_differ :
  ~ (forall (ops : list registry_op) (c : RpcContext),
       dom (services c) = dom (instances c) ->
       dom (services (run_ops ops c)) = dom (instances (run_ops ops c))).
Proof.
  intros H.
  specialize (H [Register "x" NeedsArgument] (empty_context quiet) eq_refl).
  assert (Hx : "x" ∈ dom (instances (run_ops [Register "x" NeedsArgument]
                                      (empty_context quiet)))).
  { rewrite <- H. apply (in_dom_by_lookup _ _ NeedsArgument). reflexivity. }
  apply elem_of_dom in Hx as [i Hi]. vm_compute in Hi. discriminate.
Qed.

(** C9 (amended). The context keeps a mapping from names to classes and a
    mapping from names to instances, and every sequence of registrations and
    unregistrations in which each registered class can be constructed keeps
    the two key sets equal. *)
Theorem registry_key_sets_agree (ops : list registry_op) (c : RpcContext) :
  dom (services c) = dom (instances c) ->
  Forall constructs ops ->
  dom (services (run_ops ops c)) = dom (instances (run_ops ops c)).
Proof.
  intros Heq Hops. revert c Heq.
  induction Hops as [|o rest Ho _ IH]; intros c Heq; simpl; [exact Heq|].
  apply IH, run_op_key_sets; assumption.
Qed.

Lemma registry_key_sets_agree_witness :
  dom (services (run_ops [Register "math" MathService; Unregister "math";
                          Unregister "math"; Register "flaky" FlakyService]
                   (empty_context quiet)))
  = dom (instances (run_ops [Register "math" MathService; Unregister "math";
                             Unregister "math"; Register "flaky" FlakyService]
                      (empty_context quiet))).
Proof.
  apply registry_key_sets_agree.
  - reflexivity.
  - repeat constructor; simpl; eexists; reflexivity.
Defined.

(** ** Construction of the context *)

(** C10. Constructing the context registers exactly the four built-in
    services "server", "discovery", "task" and "event", in that order, and
    calls the initializer of each with the context; nothing else is
    registered or dispatched. *)
Theorem RpcContext_init_registers_builtins (d : Dispatcher) :
  snd (RpcContext_init d) = Return tt /\
  services (fst (RpcContext_init d))
  = {[ "server" := ManagementService; "discovery" := DiscoveryService;
       "task" := TaskService; "event" := EventService ]} /\
  dom (instances (fst (RpcContext_init d)))
  = {[ "server"; "discovery"; "task"; "event" ]} /\
  instances (fst (RpcContext_init d))
  = {[ "server" :=
         {| inst_class := ManagementService;
            inst_dict := {[ "_ManagementService__context" := context_ref ]} |};
       "discovery" :=
         {| inst_class := DiscoveryService;
            inst_dict := {[ "_DiscoveryService__context" := context_ref ]} |};
       "task" :=
         {| inst_class := TaskService;
            inst_dict := {[ "_TaskService__datastore" := VObject "datastore";
                            "_TaskService__balancer" := VObject "balancer" ]} |};
       "event" :=
         {| inst_class := EventService;
            inst_dict := {[ "_EventService__datastore" := VObject "datastore";
                            "_EventService__dispatcher" := VObject "dispatcher" ]} |} ]} /\
  invoked (fst (RpcContext_init d))
  = (fun name => {| ce_service := name; ce_member := "initialize";
                    ce_args := Positional [context_ref] |})
    <$> ["server"; "discovery"; "task"; "event"] /\
  logger (fst (RpcContext_init d)) = [].
Proof.
  repeat split; vm_compute; reflexivity.
Qed.

(** * Further properties of the engine *)

(** ** How registration, unregistration and dispatch compose *)

(** Registering a name touches no other entry of the two mappings (for
    services whose methods touch their own instance and the collaborators
    only, as every body above does). *)
Theorem register_service_leaves_other_entries
    (name other : string) (cl : clazz) (c : RpcContext) :
  other <> name ->
  services (fst (register_service name cl c)) !! other = services c !! other /\
  instances (fst (register_service name cl c)) !! other = instances c !! other.
Proof.
  intros Hne. destruct (cls_new cl) as [d|e] eqn:Hnew.
  - rewrite (register_service_services name cl c d Hnew).
    destruct (register_service_instance name cl c d Hnew) as [d' ->].
    rewrite !lookup_insert_ne by congruence. split; reflexivity.
  - rewrite (register_service_unbuilt name cl c e Hnew). simpl.
    rewrite lookup_insert_ne by congruence. split; reflexivity.
Qed.

Lemma register_service_leaves_other_entries_witness :
  services (fst (register_service "flaky" FlakyService math_context)) !! "math"
  = services math_context !! "math".
Proof.
  apply (register_service_leaves_other_entries "flaky" "math" FlakyService math_context).
  discriminate.
Defined.

(** Registering a new name and unregistering it again gives back the two
    mappings as they were, whether the initializer returned or raised. *)
Theorem register_then_unregister_restores
    (name : string) (cl : clazz) (c : RpcContext) (d : attrs) :
  cls_new cl = Return d ->
  name ∉ dom (services c) ->
  name ∉ dom (instances c) ->
  let registered := fst (register_service name cl c) in
  snd (unregister_service name registered) = Return tt /\
  services (fst (unregister_service name registered)) = services c /\
  instances (fst (unregister_service name registered)) = instances c.
Proof.
  intros Hnew Hs Hi registered.
  pose proof (register_service_services name cl c d Hnew) as Hservices.
  destruct (register_service_instance name cl c d Hnew) as [d' Hinstances].
  fold registered in Hservices, Hinstances.
  rewrite (unregister_service_present name registered
             {| inst_class := cl; inst_dict := d' |}).
  - simpl. rewrite Hservices, Hinstances, !delete_insert_eq.
    rewrite !delete_id by (apply not_elem_of_dom; assumption).
    repeat split; reflexivity.
  - rewrite Hservices, dom_insert_L. apply elem_of_union_l, elem_of_singleton. reflexivity.
  - rewrite Hinstances. apply lookup_insert_eq.
Qed.

Lemma register_then_unregister_restores_witness :
  services (fst (unregister_service "flaky"
                   (fst (register_service "flaky" FlakyService math_context))))
  = services math_context.
Proof.
  apply (register_then_unregister_restores "flaky" FlakyService math_context ∅).
  - reflexivity.
  - apply not_in_dom_by_lookup. reflexivity.
  - apply not_in_dom_by_lookup. reflexivity.
Defined.

(** Once unregister_service has returned, every call dispatched to that
    name fails with ENOENT and calls nothing. *)
Theorem dispatch_call_after_unregister
    (name operation : string) (args : pyval) (c : RpcContext) :
  snd (unregister_service name c) = Return tt ->
  name <> "" ->
  has_dot operation = false ->
  let after := fst (unregister_service name c) in
  snd (dispatch_call (name ++ "." ++ operation) args after)
  = Raise (RpcException ENOENT ("Service " ++ name ++ " not found")) /\
  invoked (fst (dispatch_call (name ++ "." ++ operation) args after)) = invoked c.
Proof.
  intros Hret Hne Hop after.
  assert (Hgone : (name ∉ dom (services after)) /\ invoked after = invoked c).
  { unfold after. destruct (decide (name ∈ dom (services c))) as [Hin|Hnot].
    - destruct (instances c !! name) as [i|] eqn:Hi.
      + rewrite (unregister_service_present name c i Hin Hi). simpl.
        split; [|reflexivity]. rewrite dom_delete_L.
        intros Hd. apply elem_of_difference in Hd as [_ Hd].
        apply Hd, elem_of_singleton. reflexivity.
      + rewrite (unregister_service_half name c Hin Hi) in Hret. discriminate.
    - rewrite (unregister_service_absent name c Hnot). split; [exact Hnot | reflexivity]. }
  destruct Hgone as [Hgone Hinv].
  unfold dispatch_call. rewrite (rpartition_last _ _ Hop).
  rewrite dispatch_split_unknown by assumption. split; [reflexivity | exact Hinv].
Qed.

Lemma dispatch_call_after_unregister_witness :
  snd (dispatch_call "math.add" (VList [VInt 2; VInt 3])
         (fst (unregister_service "math" math_context)))
  = Raise (RpcException ENOENT "Service math not found").
Proof.
  apply (dispatch_call_after_unregister "math" "add" (VList [VInt 2; VInt 3]) math_context).
  - reflexivity.
  - discriminate.
  - reflexivity.
Defined.

(** A registration that fails is not undone: when the constructor raises,
    the class stays in the class mapping, nothing is stored in the instance
    mapping and nothing is called; when the instance has no [initialize],
    AttributeError is raised with the class and the instance both stored. *)
Theorem register_service_failure_is_kept
    (name : string) (cl : clazz) (c : RpcContext) :
  (forall e, cls_new cl = Raise e ->
     snd (register_service name cl c) = Raise e /\
     services (fst (register_service name cl c)) !! name = Some cl /\
     instances (fst (register_service name cl c)) = instances c /\
     invoked (fst (register_service name cl c)) = invoked c) /\
  (forall d, cls_new cl = Return d ->
     d !! "initialize" = None ->
     cls_methods cl !! "initialize" = None ->
     snd (register_service name cl c) = Raise (AttributeError "initialize") /\
     services (fst (register_service name cl c)) !! name = Some cl /\
     instances (fst (register_service name cl c)) !! name
     = Some {| inst_class := cl; inst_dict := d |} /\
     invoked (fst (register_service name cl c)) = invoked c).
Proof.
  split.
  - intros e He. rewrite (register_service_unbuilt name cl c e He). simpl.
    rewrite lookup_insert_eq. repeat split; reflexivity.
  - intros d Hd Hown Hcls.
    rewrite (register_service_no_initializer name cl c d Hd (AttributeError "initialize")).
    + simpl. rewrite !lookup_insert_eq. repeat split; reflexivity.
    + unfold getattr. simpl. rewrite Hown, Hcls.
      destruct (decide ("initialize" ∈ object_members)) as [Hobj|]; [|reflexivity].
      exfalso. revert Hobj. apply not_object_member. reflexivity.
Qed.

Lemma register_service_failure_is_kept_witness :
  snd (register_service "x" NeedsArgument (empty_context quiet))
  = Raise (TypeError "__init__() takes exactly 2 arguments (1 given)") /\
  instances half_registered = instances (empty_context quiet).
Proof.
  destruct (register_service_failure_is_kept "x" NeedsArgument (empty_context quiet))
    as [Hraise _].
  destruct (Hraise (TypeError "__init__() takes exactly 2 arguments (1 given)") eq_refl)
    as (Hsnd & _ & Hinst & _).
  split; [exact Hsnd | exact Hinst].
Defined.

(** ** Resolution of the member *)

Section Resolution.
Variables (path service sep name : string) (args : pyval) (c : RpcContext).

Hypothesis Hsplit : rpartition path = (service, sep, name).
Hypothesis Hservice : service <> "".
Hypothesis Hknown : service ∈ dom (services c).

Let logged : RpcContext := add_log (call_line service path) c.

Lemma dispatch_call_no_instance :
  instances c !! service = None ->
  dispatch_call path args c = (logged, Raise (KeyError service)).
Proof.
  intros Hi. unfold dispatch_call. rewrite Hsplit.
  unfold dispatch_split, bind, modify, raise, get, instance_at. simpl.
  destruct (decide (service = "")); [contradiction|].
  destruct (decide _) as [_|Hnot]; [|contradiction].
  change (instances (add_log (call_line service path) c)) with (instances c).
  rewrite Hi. reflexivity.
Qed.

Lemma dispatch_call_no_member (i : instance) :
  instances c !! service = Some i ->
  inst_dict i !! name = None ->
  cls_methods (inst_class i) !! name = None ->
  name ∉ object_members ->
  dispatch_call path args c
  = (logged, Raise (RpcException ENOENT "Method not found")).
Proof.
  intros Hi Hd Hm Hobj. unfold dispatch_call. rewrite Hsplit.
  apply (dispatch_split_no_member _ _ _ _ _ i name); try assumption.
  unfold getattr. rewrite Hd, Hm.
  destruct (decide _); [contradiction | reflexivity].
Qed.

Lemma dispatch_call_plain_member (i : instance) (v : pyval) (a : call_args) :
  instances c !! service = Some i ->
  inst_dict i !! name = Some v ->
  call_shape (args_or_empty args) = Some a ->
  dispatch_call path args c
  = (add_invoked {| ce_service := service; ce_member := name; ce_args := a |} logged,
     Raise invalid_parameters).
Proof.
  intros Hi Hv Ha.
  assert (Hg : getattr i name = Return (Plain v)).
  { unfold getattr. rewrite Hv. reflexivity. }
  rewrite (dispatch_call_calls path service sep name args c i (Plain v)
             Hsplit Hservice Hknown Hi Hg a Ha).
  reflexivity.
Qed.
End Resolution.

(** A name that has a class but no instance (what a registration leaves
    when the constructor raises) makes dispatch_call raise KeyError, which
    is not an RpcException: the lookup of the instance stands under
    [except AttributeError] only. *)
Theorem dispatch_call_without_instance_raises_KeyError
    (path service sep name : string) (args : pyval) (c : RpcContext) :
  rpartition path = (service, sep, name) ->
  service <> "" ->
  service ∈ dom (services c) ->
  instances c !! service = None ->
  snd (dispatch_call path args c) = Raise (KeyError service) /\
  invoked (fst (dispatch_call path args c)) = invoked c.
Proof.
  intros Hsplit Hne Hin Hi.
  rewrite (dispatch_call_no_instance path service sep name args c Hsplit Hne Hin Hi).
  split; reflexivity.
Qed.

Lemma dispatch_call_without_instance_raises_KeyError_witness :
  snd (dispatch_call "x.initialize" (VList []) half_registered) = Raise (KeyError "x").
Proof.
  apply (dispatch_call_without_instance_raises_KeyError
           "x.initialize" "x" "." "initialize" (VList []) half_registered).
  - reflexivity.
  - discriminate.
  - apply (in_dom_by_lookup _ _ NeedsArgument). reflexivity.
  - reflexivity.
Defined.

(** A member that neither the instance nor its class has, and that is
    not one of the members every object has, makes dispatch_call fail with
    ENOENT "Method not found", whatever the arguments are (even of a wrong
    shape), and nothing is called. *)
Theorem dispatch_call_unknown_member
    (path service sep name : string) (args : pyval) (c : RpcContext) (i : instance) :
  rpartition path = (service, sep, name) ->
  service <> "" ->
  service ∈ dom (services c) ->
  instances c !! service = Some i ->
  inst_dict i !! name = None ->
  cls_methods (inst_class i) !! name = None ->
  name ∉ object_members ->
  snd (dispatch_call path args c) = Raise (RpcException ENOENT "Method not found") /\
  invoked (fst (dispatch_call path args c)) = invoked c /\
  instances (fst (dispatch_call path args c)) = instances c.
Proof.
  intros Hsplit Hne Hin Hi Hd Hm Hobj.
  rewrite (dispatch_call_no_member path service sep name args c Hsplit Hne Hin
             i Hi Hd Hm Hobj).
  repeat split; reflexivity.
Qed.

Lemma dispatch_call_unknown_member_witness :
  snd (dispatch_call "math.missing" (VStr "not-a-container") math_context)
  = Raise (RpcException ENOENT "Method not found").
Proof.
  apply (dispatch_call_unknown_member
           "math.missing" "math" "." "missing" (VStr "not-a-container")
           math_context math_instance).
  - reflexivity.
  - discriminate.
  - apply (in_dom_by_lookup _ _ MathService). reflexivity.
  - reflexivity.
  - reflexivity.
  - reflexivity.
  - apply not_object_member. reflexivity.
Defined.

Definition is_object (v : pyval) : bool :=
  match v with VObject _ => true | _ => false end.

(** A member that is a plain value of the instance (None, a boolean, a
    number, a string, a list or a dict; for instance a private attribute)
    is found by dispatch_call and called like a function: the call fails
    and the caller gets EINVAL "Invalid function parameters", not ENOENT. *)
Theorem dispatch_call_on_plain_attribute
    (path service sep name : string) (args : pyval) (c : RpcContext)
    (i : instance) (v : pyval) (a : call_args) :
  rpartition path = (service, sep, name) ->
  service <> "" ->
  service ∈ dom (services c) ->
  instances c !! service = Some i ->
  inst_dict i !! name = Some v ->
  is_object v = false ->
  call_shape (args_or_empty args) = Some a ->
  snd (dispatch_call path args c) = Raise invalid_parameters /\
  instances (fst (dispatch_call path args c)) = instances c.
Proof.
  intros Hsplit Hne Hin Hi Hv _ Ha.
  rewrite (dispatch_call_plain_member path service sep name args c Hsplit Hne Hin
             i v a Hi Hv Ha).
  split; reflexivity.
Qed.

Lemma dispatch_call_on_plain_attribute_witness :
  snd (dispatch_call "discovery._DiscoveryService__context" VNone
         (set_instances
            <["discovery" := {| inst_class := DiscoveryService;
                                 inst_dict := {[ "_DiscoveryService__context" := VNone ]} |}]>
            (set_services <["discovery" := DiscoveryService]> (empty_context quiet))))
  = Raise invalid_parameters.
Proof.
  eapply (dispatch_call_on_plain_attribute
            "discovery._DiscoveryService__context" "discovery" "."
            "_DiscoveryService__context" VNone _ _ VNone (Keyword ∅)).
  - reflexivity.
  - discriminate.
  - apply (in_dom_by_lookup _ _ DiscoveryService). reflexivity.
  - reflexivity.
  - reflexivity.
  - reflexivity.
  - reflexivity.
Defined.



(** ** DiscoveryService *)

Definition discovery_attr : string := "_DiscoveryService__context".

(** A DiscoveryService instance whose private attribute holds [v]. *)
Definition discovery_holding (v : pyval) : instance :=
  {| inst_class := DiscoveryService; inst_dict := {[ discovery_attr := v ]} |}.

(** Whether a value is the reference to the context. *)
Definition is_context (v : pyval) : bool :=
  match v with
  | VObject o => bool_decide (o = "RpcContext")
  | _ => false
  end.

Lemma holds_context_singleton (v : pyval) :
  holds_context {[ discovery_attr := v ]} discovery_attr = is_context v.
Proof.
  unfold holds_context. rewrite lookup_singleton_eq.
  destruct v; reflexivity.
Qed.

Lemma keys_value_names {A} (m : gmap string A) :
  exists names, keys_value m = VList (VStr <$> names) /\
    NoDup names /\ forall n, n ∈ names <-> n ∈ dom m.
Proof.
  exists (fst <$> map_to_list m). split; [reflexivity|].
  split; [apply NoDup_fst_map_to_list|].
  intros n. rewrite elem_of_dom, list_elem_of_fmap. split.
  - intros ([k x] & -> & Hin). exists x. apply elem_of_map_to_list. exact Hin.
  - intros [x Hx]. exists (n, x). split; [reflexivity|].
    apply elem_of_map_to_list. exact Hx.
Qed.

Section Discovery.
Variables (svc : string) (v : pyval) (c : RpcContext).

Hypothesis Hsvc : svc <> "".
Hypothesis Hknown : svc ∈ dom (services c).
Hypothesis Hinstance : instances c !! svc = Some (discovery_holding v).

Let entered (member : string) (a : call_args) : RpcContext :=
  add_invoked {| ce_service := svc; ce_member := member; ce_args := a |}
    (add_log (call_line svc (svc ++ "." ++ member)) c).

Lemma discovery_call (member : string) (m : method) (args : pyval) (a : call_args) :
  has_dot member = false ->
  cls_methods DiscoveryService !! member = Some m ->
  m_static m = false ->
  member <> discovery_attr ->
  call_shape (args_or_empty args) = Some a ->
  dispatch_call (svc ++ "." ++ member) args c
  = try_except (invoke svc member (discovery_holding v) (BoundMethod m) a)
      is_TypeError (raise invalid_parameters)
      (add_log (call_line svc (svc ++ "." ++ member)) c).
Proof.
  intros Hdot Hm Hstatic Hne Ha.
  apply (dispatch_call_calls _ svc "." member args c (discovery_holding v)
           (BoundMethod m)); try assumption.
  - apply rpartition_last, Hdot.
  - unfold getattr, discovery_holding. cbn [inst_dict inst_class].
    rewrite lookup_singleton_ne by congruence. rewrite Hm, Hstatic. reflexivity.
Qed.

Lemma discovery_get_services :
  dispatch_call (svc ++ ".get_services") (VList []) c
  = (entered "get_services" (Positional []),
     if is_context v then Return (keys_value (services c))
     else Raise (AttributeError "services")).
Proof.
  change (svc ++ ".get_services") with (svc ++ "." ++ "get_services").
  rewrite (discovery_call "get_services" (def [] BodyGetServices) (VList [])
             (Positional [])); try reflexivity; [|discriminate].
  unfold try_except, invoke, bind, modify, raise, run_body, m_body, def, get, ret.
  cbn [m_params bind_args bind_positional inst_dict discovery_holding].
  change "_DiscoveryService__context" with discovery_attr.
  rewrite (holds_context_singleton v).
  destruct (is_context v); reflexivity.
Qed.

Lemma discovery_get_methods (target : string) :
  dispatch_call (svc ++ ".get_methods") (VList [VStr target]) c
  = (entered "get_methods" (Positional [VStr target]),
     if is_context v then
       if decide (target ∈ dom (services c)) then
         match instances c !! target with
         | Some j =>
             match getattr j "enumerate_methods" with
             | Return _ => Return (VList (VStr <$> enumerate_methods j))
             | Raise x => Raise x
             end
         | None => Raise (KeyError target)
         end
       else Raise (RpcException ENOENT "Service not found")
     else Raise (AttributeError "services")).
Proof.
  change (svc ++ ".get_methods") with (svc ++ "." ++ "get_methods").
  rewrite (discovery_call "get_methods" (def [required "service"] BodyGetMethods)
             (VList [VStr target]) (Positional [VStr target]));
    try reflexivity; [|discriminate].
  unfold try_except, invoke, bind, modify, raise, run_body, m_body, def.
  cbn [m_params bind_args bind_positional inst_dict discovery_holding required
       p_name p_default].
  change "_DiscoveryService__context" with discovery_attr.
  rewrite (holds_context_singleton v).
  destruct (is_context v); [|reflexivity].
  rewrite lookup_insert_eq. cbn [default from_option id].
  unfold get_methods, bind, get, instance_at, ret, raise, lift. cbv beta.
  change (services (add_invoked _ (add_log _ c))) with (services c).
  destruct (decide (target ∈ dom (services c))); [|reflexivity].
  change (instances (add_invoked _ (add_log _ c))) with (instances c).
  destruct (instances c !! target) as [j|]; [|reflexivity].
  destruct (getattr j "enumerate_methods") as [f|x] eqn:Hg; [reflexivity|].
  apply getattr_raises in Hg as ->. reflexivity.
Qed.

Lemma discovery_initialize (w : pyval) :
  dispatch_call (svc ++ ".initialize") (VList [w]) c
  = (set_instances <[svc := discovery_holding w]> (entered "initialize" (Positional [w])),
     Return VNone).
Proof.
  change (svc ++ ".initialize") with (svc ++ "." ++ "initialize").
  rewrite (discovery_call "initialize"
             (def [required "context"]
                (store (fun e => Some [("_DiscoveryService__context", arg e "context")])))
             (VList [w]) (Positional [w]))
    by (reflexivity || discriminate).
  reflexivity.
Qed.
End Discovery.

(** The context that [RpcContext.__init__] builds for the sample
    dispatcher. *)
Definition builtin_context : RpcContext := fst (RpcContext_init quiet).

(** DiscoveryService.get_services, dispatched to an initialized instance,
    answers with the names of the class mapping at the time of the call:
    each registered name once (the discovery service's own name included),
    and nothing else. *)
Theorem discovery_get_services_lists_registry (svc : string) (c : RpcContext) :
  svc <> "" ->
  svc ∈ dom (services c) ->
  instances c !! svc = Some (discovery_holding context_ref) ->
  exists names,
    snd (dispatch_call (svc ++ ".get_services") (VList []) c)
    = Return (VList (VStr <$> names)) /\
    NoDup names /\
    forall n, n ∈ names <-> n ∈ dom (services c).
Proof.
  intros Hne Hin Hi.
  rewrite (discovery_get_services svc context_ref c Hne Hin Hi).
  destruct (keys_value_names (services c)) as (names & Hkeys & Hnd & Hdom).
  exists names. simpl. rewrite Hkeys. split; [reflexivity|]. split; assumption.
Qed.

Lemma discovery_get_services_lists_registry_witness :
  exists names,
    snd (dispatch_call ("discovery" ++ ".get_services") (VList []) builtin_context)
    = Return (VList (VStr <$> names)) /\
    NoDup names /\
    forall n, n ∈ names <-> n ∈ dom (services builtin_context).
Proof.
  apply (discovery_get_services_lists_registry "discovery" builtin_context).
  - discriminate.
  - apply (in_dom_by_lookup _ _ DiscoveryService). reflexivity.
  - reflexivity.
Defined.

(** DiscoveryService.get_methods, dispatched to an initialized instance:
    for a registered service whose instance has RpcService's
    [enumerate_methods], the answer is that instance's enumeration; for a
    name that is not registered, the RpcException ENOENT "Service not
    found" of the method reaches the caller as it is; for a name with a
    class and no instance, KeyError does. *)
Theorem discovery_get_methods_answers
    (svc target : string) (c : RpcContext) :
  svc <> "" ->
  svc ∈ dom (services c) ->
  instances c !! svc = Some (discovery_holding context_ref) ->
  let answer := snd (dispatch_call (svc ++ ".get_methods") (VList [VStr target]) c) in
  (forall j, target ∈ dom (services c) ->
     instances c !! target = Some j ->
     getattr j "enumerate_methods" = Return (BoundMethod (def [] BodyEnumerate)) ->
     answer = Return (VList (VStr <$> enumerate_methods j))) /\
  (target ∉ dom (services c) ->
     answer = Raise (RpcException ENOENT "Service not found")) /\
  (target ∈ dom (services c) ->
     instances c !! target = None ->
     answer = Raise (KeyError target)).
Proof.
  intros Hne Hin Hi answer. unfold answer.
  rewrite (discovery_get_methods svc context_ref c Hne Hin Hi target).
  cbn [snd is_context context_ref]. rewrite bool_decide_eq_true_2 by reflexivity.
  split; [|split].
  - intros j Ht Hj Hg. destruct (decide _); [|contradiction]. rewrite Hj, Hg. reflexivity.
  - intros Ht. destruct (decide _); [contradiction | reflexivity].
  - intros Ht Hj. destruct (decide _); [|contradiction]. rewrite Hj. reflexivity.
Qed.

Lemma discovery_get_methods_answers_witness :
  snd (dispatch_call ("discovery" ++ ".get_methods") (VList [VStr "server"]) builtin_context)
  = Return (VList (VStr <$> ["die_you_gravy_sucking_pig_dog"; "get_connected_clients";
                             "reload_plugins"; "restart"; "status"])) /\
  snd (dispatch_call ("discovery" ++ ".get_methods") (VList [VStr "math"]) builtin_context)
  = Raise (RpcException ENOENT "Service not found").
Proof.
  split.
  - destruct (discovery_get_methods_answers "discovery" "server" builtin_context)
      as (Hlisted & _ & _).
    + discriminate.
    + apply (in_dom_by_lookup _ _ DiscoveryService). reflexivity.
    + reflexivity.
    + rewrite (Hlisted {| inst_class := ManagementService;
                          inst_dict := {[ "_ManagementService__context" := context_ref ]} |}).
      * vm_compute. reflexivity.
      * apply (in_dom_by_lookup _ _ ManagementService). reflexivity.
      * reflexivity.
      * reflexivity.
  - destruct (discovery_get_methods_answers "discovery" "math" builtin_context)
      as (_ & Hmissing & _).
    + discriminate.
    + apply (in_dom_by_lookup _ _ DiscoveryService). reflexivity.
    + reflexivity.
    + apply Hmissing. apply not_in_dom_by_lookup. reflexivity.
Defined.

(** A DiscoveryService instance keeps whatever [initialize] was last
    called with, and [initialize] can be called again through
    dispatch_call: afterwards get_services works only if the value given
    was the context, and raises AttributeError (which reaches the caller
    as it is) for any other value, None included, which is also what the
    constructor leaves. *)
Theorem discovery_works_only_with_the_context
    (svc : string) (v w : pyval) (c : RpcContext) :
  svc <> "" ->
  svc ∈ dom (services c) ->
  instances c !! svc = Some (discovery_holding v) ->
  let after := fst (dispatch_call (svc ++ ".initialize") (VList [w]) c) in
  snd (dispatch_call (svc ++ ".initialize") (VList [w]) c) = Return VNone /\
  instances after = <[svc := discovery_holding w]> (instances c) /\
  services after = services c /\
  snd (dispatch_call (svc ++ ".get_services") (VList []) after)
  = (if is_context w then Return (keys_value (services c))
     else Raise (AttributeError "services")) /\
  (cls_new DiscoveryService = Return (inst_dict (discovery_holding VNone)) /\
   is_context VNone = false).
Proof.
  intros Hne Hin Hi after. unfold after.
  rewrite (discovery_initialize svc v c Hne Hin Hi w).
  cbn [fst snd]. split; [reflexivity|]. split; [reflexivity|]. split; [reflexivity|].
  split; [|split; reflexivity].
  rewrite (discovery_get_services svc w).
  - reflexivity.
  - exact Hne.
  - exact Hin.
  - apply lookup_insert_eq.
Qed.

Lemma discovery_works_only_with_the_context_witness :
  snd (dispatch_call ("discovery" ++ ".get_services") (VList [])
         (fst (dispatch_call ("discovery" ++ ".initialize") (VList [VNone])
                 builtin_context)))
  = Raise (AttributeError "services").
Proof.
  destruct (discovery_works_only_with_the_context
              "discovery" context_ref VNone builtin_context)
    as (_ & _ & _ & Hbroken & _).
  - discriminate.
  - apply (in_dom_by_lookup _ _ DiscoveryService). reflexivity.
  - reflexivity.
  - exact Hbroken.
Defined.

(** ** Arguments that do not fit the parameters, through dispatch_call *)

(** More values than parameters, a key that names no parameter, or a
    parameter without default left without value: dispatch_call fails with
    EINVAL "Invalid function parameters", the body of the operation is not
    run and the instance is left as it was. *)
Theorem dispatch_call_rejects_misfit
    (path service sep name : string) (args : pyval) (c : RpcContext)
    (i : instance) (m : method) (a : call_args) :
  rpartition path = (service, sep, name) ->
  service <> "" ->
  service ∈ dom (services c) ->
  instances c !! service = Some i ->
  getattr i name = Return (BoundMethod m) ->
  call_shape (args_or_empty args) = Some a ->
  misfit (m_params m) a ->
  snd (dispatch_call path args c) = Raise invalid_parameters /\
  instances (fst (dispatch_call path args c)) = instances c.
Proof.
  intros Hsplit Hne Hin Hi Hg Ha Hmis.
  rewrite (dispatch_call_calls path service sep name args c i (BoundMethod m)
             Hsplit Hne Hin Hi Hg a Ha).
  unfold try_except, invoke, bind, modify, raise. simpl.
  rewrite (misfit_unbound _ _ Hmis). split; reflexivity.
Qed.

Lemma dispatch_call_rejects_misfit_witness :
  snd (dispatch_call "math.add" (VList [VInt 1; VInt 2; VInt 3]) math_context)
  = Raise invalid_parameters /\
  snd (dispatch_call "math.add" (VDict {[ "a" := VInt 1; "c" := VInt 2 ]}) math_context)
  = Raise invalid_parameters.
Proof.
  split.
  - apply (dispatch_call_rejects_misfit
             "math.add" "math" "." "add" (VList [VInt 1; VInt 2; VInt 3]) math_context
             math_instance math_add (Positional [VInt 1; VInt 2; VInt 3])).
    + reflexivity.
    + discriminate.
    + apply (in_dom_by_lookup _ _ MathService). reflexivity.
    + reflexivity.
    + reflexivity.
    + reflexivity.
    + apply too_many_values. simpl. lia.
  - apply (dispatch_call_rejects_misfit
             "math.add" "math" "." "add"
             (VDict {[ "a" := VInt 1; "c" := VInt 2 ]}) math_context
             math_instance math_add (Keyword {[ "a" := VInt 1; "c" := VInt 2 ]})).
    + reflexivity.
    + discriminate.
    + apply (in_dom_by_lookup _ _ MathService). reflexivity.
    + reflexivity.
    + reflexivity.
    + reflexivity.
    + apply (unknown_key _ _ "c").
      * apply (in_dom_by_lookup _ _ (VInt 2)). reflexivity.
      * simpl. intros Hc. repeat (apply elem_of_cons in Hc as [Hc|Hc]; [discriminate|]).
        inversion Hc.
Defined.

(** ** Positional and keyword calls of the same operation *)

Lemma bind_named_as_positional (ps : list param) (l : list pyval)
    (d : gmap string pyval) :
  length l = length ps ->
  (forall k p v, ps !! k = Some p -> l !! k = Some v -> d !! p_name p = Some v) ->
  bind_named ps d = bind_positional ps l.
Proof.
  revert l. induction ps as [|p ps IH]; intros [|v l] Hlen Hd; simpl in *;
    try discriminate; [reflexivity|].
  rewrite (Hd 0 p v eq_refl eq_refl).
  rewrite (IH l) by (lia || (intros k q w Hq Hw; exact (Hd (S k) q w Hq Hw))).
  destruct (bind_positional ps l); reflexivity.
Qed.

(** The mapping that names each value of [l] after the parameter at its
    position. *)
Definition by_name (ps : list param) (l : list pyval) : gmap string pyval :=
  list_to_map (zip (p_name <$> ps) l).

Lemma bind_keyword_by_position (ps : list param) (l : list pyval) :
  NoDup (p_name <$> ps) ->
  length l = length ps ->
  bind_keyword ps (by_name ps l) = bind_positional ps l.
Proof.
  intros Hnd Hlen. unfold bind_keyword, by_name.
  assert (Hfst : (zip (p_name <$> ps) l).*1 = p_name <$> ps).
  { apply fst_zip. rewrite length_fmap. lia. }
  destruct (decide _) as [_|Hnot].
  - apply bind_named_as_positional; [exact Hlen|].
    intros k p v Hp Hv. apply elem_of_list_to_map_1.
    + rewrite Hfst. exact Hnd.
    + apply list_elem_of_lookup. exists k. apply lookup_zip_Some.
      split; [|exact Hv]. rewrite list_lookup_fmap, Hp. reflexivity.
  - exfalso. apply Hnot. rewrite dom_list_to_map_L, Hfst. reflexivity.
Qed.

(** What a body answers depends on the dispatcher and on the two mappings
    only. *)
Lemma run_body_outcome (service : string) (self : instance) (b : body) (e : env)
    (c c' : RpcContext) :
  dispatcher c = dispatcher c' ->
  services c = services c' ->
  instances c = instances c' ->
  snd (run_body service self b e c) = snd (run_body service self b e c').
Proof.
  intros Hd Hs Hi. destruct b as [f| | |]; simpl.
  - unfold bind, get, modify, lift. rewrite Hd.
    destruct (f (dispatcher c') (inst_dict self) e) as [d' r]. reflexivity.
  - destruct (holds_context _ _); [|reflexivity].
    unfold bind, get, ret. simpl. rewrite Hs. reflexivity.
  - destruct (holds_context _ _); [|reflexivity].
    unfold get_methods, bind, get, ret, raise, instance_at, lift.
    destruct (default VNone (e !! "service")); try reflexivity.
    rewrite Hs. destruct (decide _); [|reflexivity].
    rewrite Hi. destruct (instances c' !! s) as [j|]; [|reflexivity].
    destruct (getattr j "enumerate_methods"); reflexivity.
  - reflexivity.
Qed.

(** Calling an operation with a sequence, or with the mapping that gives
    the same values by parameter name, has the same outcome (the parameters
    having distinct names and the sequence one value for each). *)
Theorem dispatch_call_by_position_or_by_name
    (path service sep name : string) (l : list pyval) (c : RpcContext)
    (i : instance) (m : method) :
  rpartition path = (service, sep, name) ->
  service <> "" ->
  service ∈ dom (services c) ->
  instances c !! service = Some i ->
  getattr i name = Return (BoundMethod m) ->
  NoDup (p_name <$> m_params m) ->
  length l = length (m_params m) ->
  snd (dispatch_call path (VDict (by_name (m_params m) l)) c)
  = snd (dispatch_call path (VList l) c).
Proof.
  intros Hsplit Hne Hin Hi Hg Hnd Hlen.
  rewrite (dispatch_call_calls path service sep name
             (VDict (by_name (m_params m) l)) c i (BoundMethod m)
             Hsplit Hne Hin Hi Hg (Keyword (by_name (m_params m) l)) eq_refl).
  rewrite (dispatch_call_calls path service sep name (VList l) c i (BoundMethod m)
             Hsplit Hne Hin Hi Hg (Positional l) eq_refl).
  unfold try_except, invoke, bind, modify, raise. simpl.
  rewrite (bind_keyword_by_position _ _ Hnd Hlen).
  destruct (bind_positional (m_params m) l) as [e|]; [|reflexivity].
  match goal with
  | |- snd (let (_, _) := run_body _ _ _ _ ?c1 in _)
       = snd (let (_, _) := run_body _ _ _ _ ?c2 in _) =>
      pose proof (run_body_outcome service i (m_body m) e c1 c2
                    eq_refl eq_refl eq_refl) as Hout;
      destruct (run_body service i (m_body m) e c1) as [k1 o1];
      destruct (run_body service i (m_body m) e c2) as [k2 o2]
  end.
  simpl in Hout. subst o2. destruct o1 as [r|x]; [reflexivity|].
  destruct (is_TypeError x); reflexivity.
Qed.

Lemma dispatch_call_by_position_or_by_name_witness :
  snd (dispatch_call "math.add" (VDict (by_name (m_params math_add) [VInt 2; VInt 3]))
         math_context)
  = snd (dispatch_call "math.add" (VList [VInt 2; VInt 3]) math_context).
Proof.
  apply (dispatch_call_by_position_or_by_name
           "math.add" "math" "." "add" [VInt 2; VInt 3] math_context
           math_instance math_add).
  - reflexivity.
  - discriminate.
  - apply (in_dom_by_lookup _ _ MathService). reflexivity.
  - reflexivity.
  - reflexivity.
  - simpl. repeat constructor; intros Hin;
      repeat (apply elem_of_cons in Hin as [Hin|Hin]; [discriminate|]); inversion Hin.
  - reflexivity.
Defined.

(** ** The order of an enumeration *)

Lemma string_leb_trans (a b c : string) :
  String.leb a b = true -> String.leb b c = true -> String.leb a c = true.
Proof.
  unfold String.leb. revert b c.
  induction a as [|x a IH]; intros [|y b] [|z c]; simpl; try congruence.
  unfold Ascii.compare.
  destruct (N.compare_spec (N_of_ascii x) (N_of_ascii y)) as [Hxy|Hxy|Hxy];
    destruct (N.compare_spec (N_of_ascii y) (N_of_ascii z)) as [Hyz|Hyz|Hyz];
    try congruence.
  - rewrite Hxy, Hyz, N.compare_refl. apply IH.
  - rewrite Hxy. rewrite (proj2 (N.compare_lt_iff _ _) Hyz). reflexivity.
  - rewrite <- Hyz. rewrite (proj2 (N.compare_lt_iff _ _) Hxy). reflexivity.
  - rewrite (proj2 (N.compare_lt_iff _ _) (N.lt_trans _ _ _ Hxy Hyz)). reflexivity.
Qed.

#[local] Instance name_le_transitive : Transitive name_le.
Proof. intros a b c. apply string_leb_trans. Qed.

#[local] Instance name_le_total : Total name_le.
Proof. intros a b. apply String.leb_total. Qed.

Lemma filter_StronglySorted {A} (R : relation A) (P : A -> Prop)
    `{forall x, Decision (P x)} (l : list A) :
  StronglySorted R l -> StronglySorted R (filter P l).
Proof.
  induction 1 as [|x l Hl IH Hx]; [constructor|].
  rewrite filter_cons. destruct (decide (P x)); [|exact IH].
  constructor; [exact IH|].
  apply Forall_forall. intros y Hy. apply list_elem_of_filter in Hy as [_ Hy].
  rewrite Forall_forall in Hx. apply Hx, Hy.
Qed.

Lemma getmembers_ismethod_sorted (i : instance) :
  StronglySorted name_le (getmembers_ismethod i) /\
  NoDup (getmembers_ismethod i).*1.
Proof.
  unfold getmembers_ismethod. split.
  - apply filter_StronglySorted, StronglySorted_merge_sort; apply _.
  - set (sorted := merge_sort name_le (map_to_list (cls_methods (inst_class i)))).
    assert (Hsub : (filter (fun nm => inst_dict i !! fst nm = None /\
                                      m_static (snd nm) = false) sorted).*1
                   `sublist_of` sorted.*1).
    { apply fmap_sublist, sublist_filter. }
    eapply sublist_NoDup; [|exact Hsub]. unfold sorted.
    rewrite merge_sort_Permutation. apply NoDup_fst_map_to_list.
Qed.

Lemma enumerate_loop_sorted (members : list (string * method)) :
  StronglySorted name_le members ->
  NoDup members.*1 ->
  StronglySorted (fun a b => String.leb a b = true) (enumerate_loop members) /\
  NoDup (enumerate_loop members).
Proof.
  induction 1 as [|[n m] rest Hrest IH Hn]; intros Hnd; simpl.
  - split; constructor.
  - apply NoDup_cons in Hnd as [Hfresh Hnd]. destruct (IH Hnd) as [IHs IHn].
    destruct (startswith_underscore n); [split; assumption|].
    destruct (reserved n); [split; assumption|].
    split; constructor; try assumption.
    + apply Forall_forall. intros k Hk.
      apply enumerate_loop_spec in Hk as ([mk Hk] & _).
      rewrite Forall_forall in Hn. exact (Hn (k, mk) Hk).
    + intros Hk. apply enumerate_loop_spec in Hk as ([mk Hk] & _).
      apply Hfresh. simpl. apply list_elem_of_fmap. exists (n, mk). split; [reflexivity|exact Hk].
Qed.

(** The names that enumerate_methods yields come in ascending order of
    name (the order of [inspect.getmembers]) and no name comes twice. *)
Theorem enumerate_methods_sorted (self : instance) :
  StronglySorted (fun a b => String.leb a b = true) (enumerate_methods self) /\
  NoDup (enumerate_methods self).
Proof.
  destruct (getmembers_ismethod_sorted self) as [Hs Hn].
  apply enumerate_loop_sorted; assumption.
Qed.

(** ** The log *)

Lemma invoke_logger (service member : string) (self : instance)
    (func : attribute) (a : call_args) (c : RpcContext) :
  logger (fst (invoke service member self func a c)) = logger c.
Proof.
  destruct (invoke_context service member self func a c) as (f & -> & _). reflexivity.
Qed.

(** Every dispatch_call, whatever its outcome, adds one line to the log,
    which gives the service name and, as the method, the whole path (not
    the operation name alone). *)
Theorem dispatch_call_logs_the_path
    (path service sep name : string) (args : pyval) (c : RpcContext) :
  rpartition path = (service, sep, name) ->
  logger (fst (dispatch_call path args c))
  = (logger c ++ [("Call: service=" ++ service ++ ", method=" ++ path)%string])%list.
Proof.
  intros Hsplit.
  destruct (decide (service = "")) as [Hempty|Hne].
  { unfold dispatch_call. rewrite Hsplit, dispatch_split_empty by exact Hempty.
    reflexivity. }
  destruct (decide (service ∈ dom (services c))) as [Hin|Hnot].
  2:{ unfold dispatch_call. rewrite Hsplit, dispatch_split_unknown by assumption.
      reflexivity. }
  destruct (instances c !! service) as [i|] eqn:Hi.
  2:{ rewrite (dispatch_call_no_instance path service sep name args c Hsplit Hne Hin Hi).
      reflexivity. }
  destruct (getattr i name) as [func|e] eqn:Hg.
  - rewrite (dispatch_call_at_binding path service sep name args c i func
               Hsplit Hne Hin Hi Hg).
    unfold bind_and_call. rewrite try_except_raise_context.
    destruct (call_shape (args_or_empty args)) as [a|]; [|reflexivity].
    rewrite invoke_logger. reflexivity.
  - pose proof (getattr_raises i name e Hg) as ->.
    unfold dispatch_call. rewrite Hsplit.
    rewrite (dispatch_split_no_member service name path args c i name Hne Hin Hi Hg).
    reflexivity.
Qed.

Lemma dispatch_call_logs_the_path_witness :
  logger (fst (dispatch_call "math.add" (VList [VInt 2; VInt 3]) math_context))
  = (logger math_context ++ ["Call: service=math, method=math.add"])%list.
Proof.
  apply (dispatch_call_logs_the_path "math.add" "math" "." "add").
  reflexivity.
Defined.

(** ** EventService.query *)

(** An EventService instance after [initialize(context)]. *)
Definition event_instance : instance :=
  {| inst_class := EventService;
     inst_dict := {[ "_EventService__datastore" := VObject "datastore";
                     "_EventService__dispatcher" := VObject "dispatcher" ]} |}.

(** What a body that is plain code answers; None for the bodies that
    read the registry. *)
Definition body_run (b : body) (d : Dispatcher) (self : attrs) (e : env)
    : option (attrs * outcome pyval) :=
  match b with
  | BodyFun f => Some (f d self e)
  | _ => None
  end.

Lemma through_run (attr holds op : string) (args : env -> list pyval)
    (returns : bool) (d : Dispatcher) (self : attrs) (e : env) :
  self !! attr = Some (VObject holds) ->
  body_run (through attr holds op args returns) d self e
  = Some (self,
          match collaborator d op (args e) with
          | Return v => Return (if returns then v else VNone)
          | Raise x => Raise x
          end).
Proof.
  intros H. unfold body_run, through. rewrite H.
  destruct (decide (holds = holds)); [|contradiction].
  destruct (collaborator d op (args e)); reflexivity.
Qed.

Lemma through_then_run (attr holds op : string) (args : env -> list pyval)
    (post : Dispatcher -> pyval -> outcome pyval)
    (d : Dispatcher) (self : attrs) (e : env) :
  self !! attr = Some (VObject holds) ->
  body_run (through_then attr holds op args post) d self e
  = Some (self,
          match collaborator d op (args e) with
          | Return v => post d v
          | Raise x => Raise x
          end).
Proof.
  intros H. unfold body_run, through_then. rewrite H.
  destruct (decide (holds = holds)); [|contradiction].
  destruct (collaborator d op (args e)); reflexivity.
Qed.

(** A call that binds runs the body on the instance's attributes, stores
    what the body leaves and hands back its outcome, a TypeError apart. *)
Lemma dispatch_call_runs_body
    (path service sep name : string) (args : pyval) (c : RpcContext)
    (i : instance) (m : method) (a : call_args) (e : env)
    (d' : attrs) (r : outcome pyval) :
  rpartition path = (service, sep, name) ->
  service <> "" ->
  service ∈ dom (services c) ->
  instances c !! service = Some i ->
  getattr i name = Return (BoundMethod m) ->
  call_shape (args_or_empty args) = Some a ->
  bind_args (m_params m) a = Some e ->
  body_run (m_body m) (dispatcher c) (inst_dict i) e = Some (d', r) ->
  snd (dispatch_call path args c) = remapped r /\
  instances (fst (dispatch_call path args c))
  = <[service := {| inst_class := inst_class i; inst_dict := d' |}]> (instances c).
Proof.
  intros Hsplit Hne Hin Hi Hg Ha Hb Hrun.
  rewrite (dispatch_call_calls path service sep name args c i (BoundMethod m)
             Hsplit Hne Hin Hi Hg a Ha).
  unfold try_except, invoke, bind, modify, raise. simpl. rewrite Hb.
  destruct (m_body m) as [f| | |]; try discriminate. simpl in Hrun.
  unfold run_body, bind, get, modify, lift. simpl.
  injection Hrun as Hrun. rewrite Hrun.
  destruct r as [v|x]; [split; reflexivity|].
  simpl. destruct (is_TypeError x); split; reflexivity.
Qed.

Lemma event_query_found :
  getattr event_instance "query" = Return (BoundMethod event_query).
Proof. reflexivity. Qed.

(** The conditions that query builds from [start] and [end]. *)
Definition query_conditions (start end_ : pyval) : list pyval :=
  ((if is_not_None start
    then [VTuple [VStr "timestamp"; VStr ">="; start]] else [])
   ++ (if is_not_None end_
       then [VTuple [VStr "timestamp"; VStr "<="; end_]] else []))%list.

(** What query returns for what the datastore answers: the list made of
    the answer. *)
Definition query_result (d : Dispatcher) (answer : outcome pyval) : outcome pyval :=
  match answer with
  | Return v => py_list d v
  | Raise x => Raise x
  end.

(** EventService.query asks the datastore for the events, with one
    condition on the timestamp for each of [start] and [end] that is not
    None (in that order) and with the limit given, and returns the list
    made of the answer (so that an answer that cannot be iterated, None for
    one, is a TypeError, which reaches the caller as EINVAL); it never
    looks at [mask].  Called with the mask alone, it asks without any
    condition and without limit. *)
Theorem event_query_ignores_mask
    (svc : string) (mask start end_ limit : pyval) (c : RpcContext) :
  svc <> "" ->
  svc ∈ dom (services c) ->
  instances c !! svc = Some event_instance ->
  snd (dispatch_call (svc ++ ".query") (VList [mask; start; end_; limit]) c)
  = remapped (query_result (dispatcher c)
                (collaborator (dispatcher c) "datastore.query"
                   [VStr "events"; VList (query_conditions start end_); limit])) /\
  snd (dispatch_call (svc ++ ".query") (VList [mask]) c)
  = remapped (query_result (dispatcher c)
                (collaborator (dispatcher c) "datastore.query"
                   [VStr "events"; VList []; VNone])).
Proof.
  intros Hne Hin Hi.
  assert (Hsplit : rpartition (svc ++ ".query") = (svc, ".", "query")).
  { apply (rpartition_last svc "query"). reflexivity. }
  split.
  - destruct (dispatch_call_runs_body (svc ++ ".query") svc "." "query"
                (VList [mask; start; end_; limit]) c event_instance event_query
                (Positional [mask; start; end_; limit])
                (<["mask" := mask]> (<["start" := start]>
                   (<["end" := end_]> (<["limit" := limit]> ∅))))
                (inst_dict event_instance)
                (query_result (dispatcher c)
                   (collaborator (dispatcher c) "datastore.query"
                      [VStr "events"; VList (query_conditions start end_); limit]))
                Hsplit Hne Hin Hi event_query_found eq_refl eq_refl) as [Hout _].
    + unfold event_query, def, m_body.
      rewrite (through_then_run _ "datastore") by reflexivity.
      reflexivity.
    + exact Hout.
  - destruct (dispatch_call_runs_body (svc ++ ".query") svc "." "query"
                (VList [mask]) c event_instance event_query
                (Positional [mask])
                (<["mask" := mask]> (<["start" := VNone]>
                   (<["end" := VNone]> (<["limit" := VNone]> ∅))))
                (inst_dict event_instance)
                (query_result (dispatcher c)
                   (collaborator (dispatcher c) "datastore.query"
                      [VStr "events"; VList []; VNone]))
                Hsplit Hne Hin Hi event_query_found eq_refl eq_refl) as [Hout _].
    + unfold event_query, def, m_body.
      rewrite (through_then_run _ "datastore") by reflexivity.
      reflexivity.
    + exact Hout.
Qed.

(** A dispatcher whose datastore answers every query with the tuple of one
    event, and the context built for it. *)
Definition archive : Dispatcher :=
  {| collaborator := fun op _ =>
       if decide (op = "datastore.query") then Return (VTuple [VStr "boot"])
       else Return VNone;
     object_member := fun _ _ self _ => (self, Return VNone) |}.

Definition archive_context : RpcContext := fst (RpcContext_init archive).

Lemma event_query_ignores_mask_witness :
  snd (dispatch_call ("event" ++ ".query")
         (VList [VStr "disk.*"; VInt 10; VNone; VInt 5]) archive_context)
  = Return (VList [VStr "boot"]) /\
  snd (dispatch_call ("event" ++ ".query") (VList [VStr "disk.*"]) builtin_context)
  = Raise invalid_parameters.
Proof.
  split.
  - destruct (event_query_ignores_mask "event" (VStr "disk.*") (VInt 10) VNone (VInt 5)
                archive_context) as [Hfull _].
    + discriminate.
    + apply (in_dom_by_lookup _ _ EventService). reflexivity.
    + reflexivity.
    + rewrite Hfull. reflexivity.
  - destruct (event_query_ignores_mask "event" (VStr "disk.*") VNone VNone VNone
                builtin_context) as [_ Halone].
    + discriminate.
    + apply (in_dom_by_lookup _ _ EventService). reflexivity.
    + reflexivity.
    + rewrite Halone. reflexivity.
Defined.
